(** * college-engine: the rule-evaluation core of [engine.js]

    A shallow embedding of the deterministic evaluator of [src/engine.js]
    (derived facts, condition evaluation, staged rule execution, monotonic
    suppression, duplicate-free accumulators, success-template selection and
    output shaping), followed by the properties of the specification that
    the code has, and the places where the two differ.

    Conventions of the embedding.
    - A JavaScript value that can occur in the parsed ruleset or in the input
      record is a [value]; [undefined] is [None] at type [jsval].  Parsed JSON
      never stores [undefined] inside an array or an object.  An object is
      the list of its entries, with distinct keys.
    - A number is its exact rational value, or [NaN] (what [parseInt] gives
      on an empty form field).  Decimal literals of the source are read as the
      decimals they spell.
    - Text is ASCII.
    - An exception ([TypeError]) is the second constructor of [result]; code
      that calls throwing code is written in the error monad.
    - The mutable [state] object is threaded explicitly: every function that
      mutates it in the source returns the new state here.

    Where the embedding stops.  Three operators of the language are embedded
    on the data the engine is written for, and not beyond:
    - [JS.get] reads own properties.  A name that a value does not own is
      looked up, in the code, in the built-in prototypes, where it may find a
      function or an accessor; the embedding answers [undefined].
    - [JS.ToString] prints values; the code raises on an object that carries
      its own [toString] entry.
    - [JS.ToNumber] is exact on numbers, booleans, [null] and [undefined];
      the code parses a text as a numeral and raises on an object that
      cannot be printed, where the embedding answers [NaN].
    The statements below that reach one of the three say so in a hypothesis:
    a path names data ([names_data], [plain_leaf], [shaped]), an operand or a
    GPA is compared as it is ([JS.exact_operand], [plain_input]); or they
    name the paths and the operands they speak of. *)

From Stdlib Require Import QArith Lqa ZArith String Ascii List Lia Btauto DecimalString.
From stdpp Require Import gmap strings list.
Local Close Scope Q_scope.
Local Open Scope string_scope.
Local Open Scope list_scope.

(** ** JavaScript data *)

Inductive num : Type :=
| NaN
| Fin (q : Q).

Unset Elimination Schemes.
Inductive value : Type :=
| VNull
| VBool (b : bool)
| VNum (n : num)
| VStr (s : string)
| VArr (items : list value)
| VObj (props : list (string * value)).
Set Elimination Schemes.

Abbreviation jsval := (option value).
Abbreviation undefined := (@None value).

(** ** Exceptions *)

Inductive result (A : Type) : Type :=
| Ok (a : A)
| TypeError.
Arguments Ok {A} a.
Arguments TypeError {A}.

#[global] Instance result_ret : MRet result := fun A a => Ok a.
#[global] Instance result_bind : MBind result :=
  fun A B k r => match r with Ok a => k a | TypeError => TypeError end.

(** ** Operators of the language that the engine uses *)

Module JS.

(** [a >= b] on numbers: false as soon as one side is [NaN]. *)
Definition num_ge (a b : num) : bool :=
  match a, b with
  | Fin x, Fin y => Qle_bool y x
  | _, _ => false
  end.

Definition num_eq (a b : num) : bool :=
  match a, b with
  | Fin x, Fin y => Qeq_bool x y
  | _, _ => false
  end.

Definition of_Z (z : Z) : value := VNum (Fin (inject_Z z)).

(** The conversion [>=] applies to an operand that is compared with a number.
    It is exact on [undefined], [null], booleans and numbers.  The conversions
    of strings, arrays and objects (which parse a numeral, print first, or
    raise on an object that cannot be printed) are not modelled: such an
    operand reads as [NaN], so that the comparison is false.  No number of
    the engine's data is written that way, and the statements on [>=] take
    operands of the first kind. *)
Definition ToNumber (v : jsval) : num :=
  match v with
  | None => NaN
  | Some VNull => Fin 0
  | Some (VBool b) => Fin (if b then 1 else 0)
  | Some (VNum n) => n
  | Some (VStr _) | Some (VArr _) | Some (VObj _) => NaN
  end.

(** The operands that [ToNumber] above converts exactly: a number as it is,
    and nothing, [null] or a boolean. *)
Definition exact_operand (v : jsval) : bool :=
  match v with
  | None | Some VNull | Some (VBool _) | Some (VNum _) => true
  | Some (VStr _) | Some (VArr _) | Some (VObj _) => false
  end.

Definition is_number (v : jsval) : bool :=
  match v with Some (VNum _) => true | _ => false end.

(** [v == null] *)
Definition is_nullish (v : jsval) : bool :=
  match v with None | Some VNull => true | _ => false end.

(** What [if (v)], [!v] and [v || d] test. *)
Definition truthy (v : jsval) : bool :=
  match v with
  | None | Some VNull => false
  | Some (VBool b) => b
  | Some (VNum NaN) => false
  | Some (VNum (Fin q)) => negb (Qeq_bool q 0)
  | Some (VStr s) => negb (String.eqb s "")
  | Some (VArr _) | Some (VObj _) => true
  end.

(** [a === b].  Arrays and objects are equal only to themselves; the two
    sides the engine compares come one from the context and one from the
    ruleset, which share no array or object, hence [false]. *)
Definition strict_eq (a b : jsval) : bool :=
  match a, b with
  | None, None => true
  | Some VNull, Some VNull => true
  | Some (VBool x), Some (VBool y) => Bool.eqb x y
  | Some (VNum x), Some (VNum y) => num_eq x y
  | Some (VStr x), Some (VStr y) => String.eqb x y
  | _, _ => false
  end.

(** The comparison of [Array.prototype.includes]: as [===], but [NaN] is
    equal to itself. *)
Definition same_value_zero (a b : jsval) : bool :=
  match a, b with
  | Some (VNum NaN), Some (VNum NaN) => true
  | _, _ => strict_eq a b
  end.

(** [arr.includes(x)] on an array. *)
Definition array_includes (arr : list value) (x : jsval) : bool :=
  existsb (fun e => same_value_zero (Some e) x) arr.

(** [s.includes(t)] on strings: [t] occurs in [s]. *)
Fixpoint string_includes (s t : string) : bool :=
  match s with
  | EmptyString => String.prefix t s
  | String.String _ rest => String.prefix t s || string_includes rest t
  end.

(** [x.includes(t)] for a string [t], on whatever [x] is: arrays and strings
    have the method, a number, a boolean or a parsed object has not. *)
Definition includes (x : value) (t : string) : result bool :=
  match x with
  | VArr arr => Ok (array_includes arr (Some (VStr t)))
  | VStr s => Ok (string_includes s t)
  | _ => TypeError
  end.

(** [v || d] *)
Definition or_else (v : jsval) (d : value) : value :=
  match v with
  | Some x => if truthy v then x else d
  | None => d
  end.

(** Own properties.  [own k props] is the value stored under key [k]. *)
Fixpoint own (k : string) (props : list (string * value)) : jsval :=
  match props with
  | [] => None
  | (k', v) :: rest => if String.eqb k' k then Some v else own k rest
  end.

Definition index_key (i : nat) : string :=
  NilZero.string_of_uint (Nat.to_uint i).

Fixpoint at_index {A : Type} (l : list A) (i : nat) (p : string) : option A :=
  match l with
  | [] => None
  | x :: rest => if String.eqb (index_key i) p then Some x else at_index rest (S i) p
  end.

(** [cur[p]]: the own properties of the datum (the keys of an object, the
    indices and the length of an array or a string).  Members inherited from
    the built-in prototypes are not data and are not modelled; the paths of a
    ruleset name data, and the statements on paths say where they need it
    ([names_data]).  On [null] and [undefined] this is the guarded read
    [cur?.[p]]: the engine reads a property behind such a guard, or from an
    object it has built itself, but for the reads of the input at the head of
    [runEngine]; there the embedding tests for [null] first, and raises. *)
Definition get (cur : jsval) (p : string) : jsval :=
  match cur with
  | Some (VObj props) => own p props
  | Some (VArr items) =>
      if String.eqb p "length" then Some (of_Z (Z.of_nat (length items)))
      else at_index items 0 p
  | Some (VStr s) =>
      if String.eqb p "length" then Some (of_Z (Z.of_nat (String.length s)))
      else (fun c => VStr (String.String c EmptyString)) <$> at_index (list_ascii_of_string s) 0 p
  | _ => None
  end.

(** [k in x]: a [TypeError] when [x] is not an object. *)
Definition has (k : string) (x : jsval) : result bool :=
  match x with
  | Some (VObj _) | Some (VArr _) => Ok (bool_decide (is_Some (get x k)))
  | _ => TypeError
  end.

(** [String(v)].  Numbers print as plain decimals (exact for the integers and
    short decimals a path could hold; exponent notation is not modelled).  An
    object prints as the code prints a plain object; one that carries a
    [toString] entry of its own cannot be printed, and the code raises on it:
    the engine prints paths, and the statements on conditions take paths that
    are texts. *)
Fixpoint frac_digits (n : nat) (r d : Z) : string :=
  match n with
  | 0 => ""
  | S n' =>
      if (r =? 0)%Z then ""
      else NilZero.string_of_int (Z.to_int (10 * r / d)) +:+ frac_digits n' ((10 * r) mod d) d
  end.

Definition num_to_string (n : num) : string :=
  match n with
  | NaN => "NaN"
  | Fin q =>
      let a := Z.abs (Qnum q) in
      let d := Zpos (Qden q) in
      let body := NilZero.string_of_int (Z.to_int (a / d)) in
      let frac := frac_digits 17 (a mod d) d in
      (if (Qnum q <? 0)%Z then "-" else "") +:+ body
        +:+ (if String.eqb frac "" then "" else "." +:+ frac)
  end.

Fixpoint join (sep : string) (l : list string) : string :=
  match l with
  | [] => ""
  | [x] => x
  | x :: rest => x +:+ sep +:+ join sep rest
  end.

Fixpoint to_string (v : value) : string :=
  match v with
  | VNull => "null"
  | VBool b => if b then "true" else "false"
  | VNum n => num_to_string n
  | VStr s => s
  | VArr items =>
      join "," (map (fun e => match e with VNull => "" | _ => to_string e end) items)
  | VObj _ => "[object Object]"
  end.

Definition ToString (v : jsval) : string :=
  match v with
  | None => "undefined"
  | Some x => to_string x
  end.

(** [s.split(".")] *)
Fixpoint split_dot (s : string) : list string :=
  match s with
  | EmptyString => [""]
  | String.String c rest =>
      if Ascii.eqb c "." then "" :: split_dot rest
      else match split_dot rest with
           | [] => [String.String c ""]
           | h :: t => String.String c h :: t
           end
  end.

(** [s.toLowerCase()] *)
Definition lower_char (c : ascii) : ascii :=
  if (Ascii.leb "A" c && Ascii.leb c "Z")%bool
  then ascii_of_nat (nat_of_ascii c + 32)
  else c.

Fixpoint toLowerCase (s : string) : string :=
  match s with
  | EmptyString => EmptyString
  | String.String c rest => String.String (lower_char c) (toLowerCase rest)
  end.

(** [arr.every(f)] and [arr.some(f)] for a callback that may throw: elements
    are visited in order and the visit stops at the first element that
    decides the answer.  On a value that is not an array there is no such
    method, and the call is a [TypeError]. *)
Fixpoint every_items {A : Type} (f : A -> result bool) (items : list A) : result bool :=
  match items with
  | [] => Ok true
  | x :: rest => b ← f x; if b : bool then every_items f rest else Ok false
  end.

Fixpoint some_items {A : Type} (f : A -> result bool) (items : list A) : result bool :=
  match items with
  | [] => Ok false
  | x :: rest => b ← f x; if b : bool then Ok true else some_items f rest
  end.

Definition every (x : jsval) (f : jsval -> result bool) : result bool :=
  match x with
  | Some (VArr items) => every_items (fun e => f (Some e)) items
  | _ => TypeError
  end.

Definition some (x : jsval) (f : jsval -> result bool) : result bool :=
  match x with
  | Some (VArr items) => some_items (fun e => f (Some e)) items
  | _ => TypeError
  end.

(** [arr.slice(0, n)] for an integer [n]: a negative [n] counts from the
    end. *)
Definition slice0 {A : Type} (arr : list A) (n : Z) : list A :=
  if (n <? 0)%Z then firstn (length arr - Z.to_nat (- n)) arr
  else firstn (Z.to_nat n) arr.

End JS.

(** ** Data of the engine *)

(** [state.outputs]: the five accumulators.  (The object also carries an
    empty [success_definition] that nothing writes.) *)
Record Outputs : Type := {
  locked : list string;
  viable : list string;
  actions : list string;
  stop : list string;
  notes : list string
}.

Record State : Type := {
  outputs : Outputs;
  suppress : gmap string bool
}.

Record Derived : Type := {
  gpa_band : string;
  time_window : string
}.

(** [ctx = { input, derived, state }].  The input record is whatever the form
    reader built: an object of numbers, strings, booleans, nulls and arrays
    of strings. *)
Record Context : Type := {
  input : value;
  derived : Derived;
  state : State
}.

(** A rule's effect: the [add_*] lists are lists of text lines, the
    suppression patch is the list of entries of a parsed object.  A field the
    ruleset omits is [None]. *)
Record Effect : Type := {
  add_locked : option (list string);
  add_viable : option (list string);
  add_actions : option (list string);
  add_stop : option (list string);
  add_notes : option (list string);
  set_suppress : option (list (string * value))
}.

(** A rule.  [when] is kept as parsed, since [evalCond] probes its shape. *)
Record Rule : Type := {
  stage : string;
  when : jsval;
  then_ : option Effect
}.

Record Constraints : Type := {
  max_locked : option Z;
  max_viable : option Z;
  max_actions : option Z;
  max_stop : option Z
}.

(** The parsed ruleset.  [output_constraints] is [None] when the ruleset
    has no such entry (or holds [null] there): [renderOutput] reads its
    members without a guard. *)
Record Ruleset : Type := {
  execution_order : option (list string);
  rules : list Rule;
  output_constraints : option Constraints;
  success_templates : option (gmap string string)
}.

(** What [renderOutput] hands to the page: the items given to [renderList]
    for each list element, and the text of the box and of the two pills. *)
Record Page : Type := {
  locked_list : list string;
  viable_list : list string;
  actions_list : list string;
  stop_list : list string;
  notes_list : list string;
  success_box : string;
  pill_gpa_band : string;
  pill_time_window : string
}.

(** The context as the object that [getField] walks. *)
Definition lines_value (l : list string) : value := VArr (VStr <$> l).

Definition outputs_value (o : Outputs) : value :=
  VObj [("locked", lines_value (locked o));
        ("viable", lines_value (viable o));
        ("actions", lines_value (actions o));
        ("stop", lines_value (stop o));
        ("success_definition", VObj []);
        ("notes", lines_value (notes o))].

Definition suppress_value (m : gmap string bool) : value :=
  VObj (prod_map id VBool <$> map_to_list m).

Definition state_value (s : State) : value :=
  VObj [("outputs", outputs_value (outputs s));
        ("suppress", suppress_value (suppress s))].

Definition derived_value (d : Derived) : value :=
  VObj [("gpa_band", VStr (gpa_band d)); ("time_window", VStr (time_window d))].

Definition context_value (ctx : Context) : value :=
  VObj [("input", input ctx);
        ("derived", derived_value (derived ctx));
        ("state", state_value (state ctx))].

(** ** The engine, function by function *)

Definition computeGpaBand (gpa : jsval) : string :=
  if JS.num_ge (JS.ToNumber gpa) (Fin 3.80) then "A"
  else if JS.num_ge (JS.ToNumber gpa) (Fin 3.50) then "B"
  else if JS.num_ge (JS.ToNumber gpa) (Fin 3.20) then "C"
  else if JS.num_ge (JS.ToNumber gpa) (Fin 2.80) then "D"
  else "E".

Definition computeTimeWindow (gradeLevel monthBucket : jsval) : string :=
  if JS.strict_eq gradeLevel (Some (JS.of_Z 9)) || JS.strict_eq gradeLevel (Some (JS.of_Z 10))
  then "early"
  else if JS.strict_eq gradeLevel (Some (JS.of_Z 11)) then "late"
  else if JS.strict_eq gradeLevel (Some (JS.of_Z 12)) then
    if JS.strict_eq monthBucket (Some (VStr "october_or_later")) then "closed"
    else "final"
  else "early".

(** [uniqPush(arr, items)]: the loop body, then the loop over
    [items || []]. *)
Definition push_new (arr : list string) (it : string) : list string :=
  if bool_decide (it ∈ arr) then arr else arr ++ [it].

Definition uniqPush (arr : list string) (items : option (list string)) : list string :=
  fold_left push_new (default [] items) arr.

(** [applySuppress(state, suppressPatch)].  The assignment
    [state.suppress[k] = true] stores an entry under every key but
    ["__proto__"]: that name is the accessor of the prototype, and assigning
    [true] to it stores nothing. *)
Definition suppress_entry (m : gmap string bool) (kv : string * value) : gmap string bool :=
  if JS.strict_eq (Some kv.2) (Some (VBool true)) then
    if String.eqb kv.1 "__proto__" then m else <[kv.1 := true]> m
  else m.

Definition applySuppress (st : State) (suppressPatch : option (list (string * value))) : State :=
  match suppressPatch with
  | None => st
  | Some entries =>
      {| outputs := outputs st; suppress := fold_left suppress_entry entries (suppress st) |}
  end.

(** [getField(ctx, path)]: the loop over the parts of the path, then the
    function. *)
Fixpoint getField_loop (cur : jsval) (parts : list string) : jsval :=
  match parts with
  | [] => cur
  | p :: rest =>
      if JS.is_nullish cur then undefined
      else getField_loop (JS.get cur p) rest
  end.

Definition getField (ctx : Context) (path : jsval) : jsval :=
  getField_loop (Some (context_value ctx)) (JS.split_dot (JS.ToString path)).

(** [Array.isArray(val) && val.length === 0] *)
Definition is_empty_array (v : jsval) : bool :=
  match v with Some (VArr []) => true | _ => false end.

(** [evalCond(ctx, cond)].  The body is written once, over the function
    [self] that the two recursive calls go to. *)
Definition evalCond_body (self : Context -> jsval -> result bool)
    (ctx : Context) (cond : jsval) : result bool :=
  if JS.is_nullish cond then Ok true else
  if JS.truthy (JS.get cond "all") then JS.every (JS.get cond "all") (self ctx) else
  if JS.truthy (JS.get cond "any") then JS.some (JS.get cond "any") (self ctx) else
  let val := getField ctx (JS.get cond "field") in
  has_exists ← JS.has "exists" cond;
  if has_exists : bool then
    let exists_ :=
      negb (JS.strict_eq val undefined) && negb (JS.strict_eq val (Some VNull))
      && negb (is_empty_array val) in
    Ok (if JS.truthy (JS.get cond "exists") then exists_ else negb exists_)
  else
  has_eq ← JS.has "eq" cond;
  if has_eq : bool then Ok (JS.strict_eq val (JS.get cond "eq")) else
  has_in ← JS.has "in" cond;
  if has_in : bool then
    Ok (match JS.get cond "in" with
        | Some (VArr arr) => JS.array_includes arr val
        | _ => false
        end)
  else
  has_gte ← JS.has "gte" cond;
  if has_gte : bool then
    Ok (JS.is_number val && JS.num_ge (JS.ToNumber val) (JS.ToNumber (JS.get cond "gte")))
  else
  has_contains ← JS.has "contains" cond;
  if has_contains : bool then
    Ok (match val with
        | Some (VArr arr) => JS.array_includes arr (JS.get cond "contains")
        | _ => false
        end)
  else Ok false.

(** The recursion of [evalCond] descends into the elements of the array
    under [all] or [any]; it is bounded by how deep the condition nests. *)
Fixpoint depth (v : value) : nat :=
  match v with
  | VArr items => S (foldr Nat.max 0 (map depth items))
  | VObj props => S (foldr Nat.max 0 (map (fun kv => depth (snd kv)) props))
  | _ => 0
  end.

Definition depth_of (v : jsval) : nat :=
  match v with Some x => depth x | None => 0 end.

Fixpoint evalCond_rec (n : nat) (ctx : Context) (cond : jsval) : result bool :=
  match n with
  | 0 => evalCond_body (fun _ _ => TypeError) ctx cond
  | S n' => evalCond_body (evalCond_rec n') ctx cond
  end.

Definition evalCond (ctx : Context) (cond : jsval) : result bool :=
  evalCond_rec (depth_of cond) ctx cond.

(** [applyThen(ctx, rule)] *)
Definition no_effect : Effect :=
  {| add_locked := None; add_viable := None; add_actions := None;
     add_stop := None; add_notes := None; set_suppress := None |}.

Definition applyThen (ctx : Context) (rule : Rule) : Context :=
  let t := default no_effect (then_ rule) in
  let o := outputs (state ctx) in
  let pushed :=
    {| outputs :=
         {| locked := uniqPush (locked o) (add_locked t);
            viable := uniqPush (viable o) (add_viable t);
            actions := uniqPush (actions o) (add_actions t);
            stop := uniqPush (stop o) (add_stop t);
            notes := uniqPush (notes o) (add_notes t) |};
       suppress := suppress (state ctx) |} in
  {| input := input ctx; derived := derived ctx;
     state := applySuppress pushed (set_suppress t) |}.

(** [chooseSuccessTemplate(ctx)] *)
Definition chooseSuccessTemplate (ctx : Context) : result string :=
  if String.eqb (time_window (derived ctx)) "closed" then Ok "closed_window" else
  let band := gpa_band (derived ctx) in
  let systems := JS.or_else (JS.get (Some (input ctx)) "systems_considered") (VArr []) in
  let campuses := JS.or_else (JS.get (Some (input ctx)) "campus_targets_uc") (VArr []) in
  let ccStructurallyPrimary :=
    String.eqb band "C" || String.eqb band "D" || String.eqb band "E" in
  ccConsidered ← JS.includes systems "cc_transfer";
  if ccStructurallyPrimary then
    Ok (if ccConsidered : bool then "cc_to_uc" else "cc_transfer_refused")
  else
  uc ← JS.includes systems "uc";
  if uc : bool then
    ucm ← JS.includes campuses "UCM";
    if ucm : bool then Ok "access_uc" else
    selective ← JS.some_items (fun c => JS.includes campuses c) ["UCR"; "UCSC"; "UCSD"; "UCLA"];
    if selective : bool then Ok "floor_guarded_uc" else
    if String.eqb (time_window (derived ctx)) "early" then Ok "mid_uc_early"
    else Ok "mid_uc_late"
  else Ok "csu".

(** [enforceConstraints(arr, maxN)]; the accumulators are arrays, so the
    [Array.isArray] guard never takes its branch. *)
Definition enforceConstraints (arr : list string) (maxN : Z) : list string :=
  JS.slice0 arr maxN.

(** [c.max_x || d] on a count: a missing entry and a zero are both falsy. *)
Definition or_count (entry : option Z) (d : Z) : Z :=
  match entry with
  | Some n => if (n =? 0)%Z then d else n
  | None => d
  end.

(** [Array.from(new Set(arr))]: the elements in the order of their first
    occurrence. *)
Definition Set_order (arr : list string) : list string :=
  fold_left push_new arr [].

(** The keys of the flags that are [true], as [renderOutput] collects them. *)
Definition suppressedKeys (m : gmap string bool) : list string :=
  (filter (fun kv => kv.2 = true) (map_to_list m)).*1.

Definition key_in (keys : list string) (k : string) : bool :=
  bool_decide (k ∈ keys).

Definition filterSuppressed (keys : list string) (line : string) : bool :=
  let s := JS.toLowerCase line in
  if key_in keys "testing" && JS.string_includes s "test" then false
  else if key_in keys "cc" && JS.string_includes s "cc" then false
  else if key_in keys "ap" && (JS.string_includes s "ap" || JS.string_includes s "honors") then false
  else if key_in keys "internships" && JS.string_includes s "intern" then false
  else if key_in keys "extracurriculars" && (JS.string_includes s "ec" || JS.string_includes s "club") then false
  else if key_in keys "middle_college" && JS.string_includes s "middle college" then false
  else true.

Definition fallback_text : string :=
  "Define success based on the primary viable pathway.".

(** [renderOutput(ctx)], with the ruleset it reads as an argument.  Note
    which of [stop] and [stopC] reaches the page. *)
Definition renderOutput (RULESET : Ruleset) (ctx : Context) : result Page :=
  let o := outputs (state ctx) in
  c ← match output_constraints RULESET with Some c => Ok c | None => TypeError end;
  let locked := enforceConstraints (locked o) (or_count (max_locked c) 7) in
  let viable := enforceConstraints (viable o) (or_count (max_viable c) 6) in
  let actions := actions o in
  let stop := stop o in
  let keys := suppressedKeys (suppress (state ctx)) in
  let actions := List.filter (filterSuppressed keys) actions in
  let actions := enforceConstraints actions (or_count (max_actions c) 5) in
  let stopC := enforceConstraints stop (or_count (max_stop c) 5) in
  templateKey ← chooseSuccessTemplate ctx;
  let successText :=
    match success_templates RULESET ≫= (fun m => m !! templateKey) with
    | Some text => if String.eqb text "" then fallback_text else text
    | None => fallback_text
    end in
  let notes := enforceConstraints (Set_order (notes o)) 8 in
  Ok {| locked_list := locked;
        viable_list := viable;
        actions_list := actions;
        stop_list := stop;
        notes_list := notes;
        success_box := successText;
        pill_gpa_band := "GPA band: " +:+ gpa_band (derived ctx);
        pill_time_window := "Time window: " +:+ time_window (derived ctx) |}.

(** [initState()] *)
Definition initState : State :=
  {| outputs := {| locked := []; viable := []; actions := []; stop := []; notes := [] |};
     suppress :=
       list_to_map
         [("cc", false); ("ap", false); ("middle_college", false); ("testing", false);
          ("internships", false); ("extracurriculars", false); ("essays", false)] |}.

(** [runEngine(input)]: the inner loop body, the inner loop, the outer
    loop, the function.  The function reads [input.gpa_unweighted] first,
    with no guard: on a [null] input that read raises. *)
Definition fire (rule : Rule) (ctx : Context) : result Context :=
  matched ← evalCond ctx (when rule);
  if matched : bool then Ok (applyThen ctx rule) else Ok ctx.

Fixpoint for_rules (stageRules : list Rule) (ctx : Context) : result Context :=
  match stageRules with
  | [] => Ok ctx
  | rule :: rest => ctx' ← fire rule ctx; for_rules rest ctx'
  end.

Fixpoint for_stages (RULESET : Ruleset) (stages : list string) (ctx : Context) : result Context :=
  match stages with
  | [] => Ok ctx
  | s :: rest =>
      let stageRules := filter (fun r => stage r = s) (rules RULESET) in
      ctx' ← for_rules stageRules ctx;
      for_stages RULESET rest ctx'
  end.

Definition runEngine (RULESET : Ruleset) (input : value) : result Context :=
  if JS.is_nullish (Some input) then TypeError else
  let derived :=
    {| gpa_band := computeGpaBand (JS.get (Some input) "gpa_unweighted");
       time_window := computeTimeWindow (JS.get (Some input) "grade_level")
                                        (JS.get (Some input) "grade_month_bucket") |} in
  let ctx := {| input := input; derived := derived; state := initState |} in
  let stages := default [] (execution_order RULESET) in
  for_stages RULESET stages ctx.

(** ** The page around the engine

    The form reader, the list renderer and the two visibility toggles.  What
    they read from the page is an argument, what they write to it is their
    result.  [parseInt(s, 10)] and [parseFloat(s)] are the language's: the
    reader is written over any two functions from strings to numbers. *)

Module Math.

(** [Math.min(a, b)] and [Math.max(a, b)]: [NaN] as soon as one side is. *)
Definition min (a b : num) : num :=
  match a, b with
  | Fin x, Fin y => Fin (if Qle_bool x y then x else y)
  | _, _ => NaN
  end.

Definition max (a b : num) : num :=
  match a, b with
  | Fin x, Fin y => Fin (if Qle_bool x y then y else x)
  | _, _ => NaN
  end.

End Math.

(** [a > b] on numbers. *)
Definition num_gt (a b : num) : bool :=
  match a, b with
  | Fin x, Fin y => negb (Qle_bool x y)
  | _, _ => false
  end.

(** [toBool(v)] *)
Definition toBool (v : jsval) : bool :=
  match v with
  | Some (VBool b) => b
  | _ => String.eqb (JS.toLowerCase (JS.ToString v)) "true"
  end.

(** [clamp(n, min, max)] *)
Definition clamp (n min max : num) : num :=
  match n with
  | NaN => min
  | Fin _ => Math.max min (Math.min max n)
  end.

(** [getMultiSelectValues(sel)]: [sel] is the list of the values of the
    selected options, or nothing when the page has no such element. *)
Definition getMultiSelectValues (sel : option (list string)) : list string :=
  match sel with
  | None => []
  | Some selected => selected
  end.

(** The form: the value of each field, under the id of its element. *)
Record Form : Type := {
  grade_level : string;
  grade_month_bucket : string;
  gpa_unweighted : string;
  gpa_trend : string;
  grade_concentration : string;
  major_bucket : string;
  systems_considered : option (list string);
  willing_prioritize_gpa_over_rigor : string;
  willing_summer_academics : string;
  willing_reduce_ecs : string;
  open_to_cc_pathways : string;
  summer_travel_weeks : string;
  campus_targets_uc : option (list string);
  academic_anomaly_timing : string;
  ec_leadership_recognition : string;
  senior_course_signals : option (list string)
}.

(** [x || null] on the text of a field. *)
Definition or_null (text : string) : value :=
  if String.eqb text "" then VNull else VStr text.

Section Reader.

Variable parseInt : string -> num.
Variable parseFloat : string -> num.

(** [readInputs()] *)
Definition readInputs (form : Form) : value :=
  let grade_level_ := parseInt (grade_level form) in
  let grade_month_bucket_ := grade_month_bucket form in
  let gpa_unweighted_ := clamp (parseFloat (gpa_unweighted form)) (Fin 2.0) (Fin 4.0) in
  VObj
    [("grade_level", VNum grade_level_);
     ("grade_month_bucket",
      if JS.strict_eq (Some (VNum grade_level_)) (Some (JS.of_Z 12))
      then VStr grade_month_bucket_ else VNull);
     ("gpa_unweighted", VNum gpa_unweighted_);
     ("gpa_trend", VStr (gpa_trend form));
     ("grade_concentration", VStr (grade_concentration form));
     ("major_bucket", VStr (major_bucket form));
     ("systems_considered", lines_value (getMultiSelectValues (systems_considered form)));
     ("willing_prioritize_gpa_over_rigor",
      VBool (toBool (Some (VStr (willing_prioritize_gpa_over_rigor form)))));
     ("willing_summer_academics",
      VBool (toBool (Some (VStr (willing_summer_academics form)))));
     ("willing_reduce_ecs", VBool (toBool (Some (VStr (willing_reduce_ecs form)))));
     ("open_to_cc_pathways", VBool (toBool (Some (VStr (open_to_cc_pathways form)))));
     ("summer_travel_weeks",
      if String.eqb (summer_travel_weeks form) "" then VNull
      else VNum (parseInt (summer_travel_weeks form)));
     ("campus_targets_uc", lines_value (getMultiSelectValues (campus_targets_uc form)));
     ("academic_anomaly_timing", or_null (academic_anomaly_timing form));
     ("ec_leadership_recognition", or_null (ec_leadership_recognition form));
     ("senior_course_signals", lines_value (getMultiSelectValues (senior_course_signals form)))].

(** [updateMonthBucketVisibility()]: whether the wrapper of the month field
    carries the class "hidden" afterwards. *)
Definition updateMonthBucketVisibility (form : Form) : bool :=
  let grade := parseInt (grade_level form) in
  negb (JS.strict_eq (Some (VNum grade)) (Some (JS.of_Z 12))).

End Reader.

(** [renderList(el, items, emptyText)]: the children of [el] afterwards, each
    with its class and its text. *)
Record Li : Type := {
  className : string;
  textContent : string
}.

Definition renderList (items : option (list string)) (emptyText : option string) : list Li :=
  match items with
  | None | Some [] =>
      [ {| className := "muted";
           textContent :=
             match emptyText with
             | Some text => if String.eqb text "" then "No items." else text
             | None => "No items."
             end |} ]
  | Some items => map (fun it => {| className := ""; textContent := it |}) items
  end.

(** [toggleUcExplainer(ctx)]: the [display] the wrapper gets, when the page
    has the wrapper. *)
Definition toggleUcExplainer (ctx : Context) (wrap : bool) : result (option string) :=
  let systems := JS.or_else (JS.get (Some (input ctx)) "systems_considered") (VArr []) in
  let campuses := JS.or_else (JS.get (Some (input ctx)) "campus_targets_uc") (VArr []) in
  uc ← JS.includes systems "uc";
  let show :=
    if uc : bool then true
    else num_gt (JS.ToNumber (JS.get (Some campuses) "length")) (Fin 0) in
  if wrap then Ok (Some (if show then "block" else "none")) else Ok None.


(** ** Notions of the specification

    The definitions below are not taken from the source: they say, in the
    words of the specification, what the theorems compare the code with. *)

(** The grade level is the number [n]. *)
Definition is_grade (gradeLevel : jsval) (n : Z) : Prop :=
  exists q, gradeLevel = Some (VNum (Fin q)) /\ (q == inject_Z n)%Q.

(** A field of the input holds the string sequence [l]: the array of these
    strings, or nothing at all for the empty sequence. *)
Definition holds_lines (v : jsval) (l : list string) : Prop :=
  v = Some (lines_value l) \/ (JS.is_nullish v = true /\ l = []).

(** The priority table of the success-template selector. *)
Definition select_by_priority (band window : string) (systems campuses : list string) : string :=
  if bool_decide (window = "closed") then "closed_window"
  else if bool_decide (band ∈ ["C"; "D"; "E"]) then
    if bool_decide ("cc_transfer" ∈ systems) then "cc_to_uc" else "cc_transfer_refused"
  else if bool_decide ("uc" ∈ systems) then
    if bool_decide ("UCM" ∈ campuses) then "access_uc"
    else if bool_decide (Exists (fun c => c ∈ campuses) ["UCR"; "UCSC"; "UCSD"; "UCLA"])
         then "floor_guarded_uc"
    else if bool_decide (window = "early") then "mid_uc_early"
    else "mid_uc_late"
  else "csu".

(** The rules in the order the engine is to try them: stage by stage along
    [execution_order], and within a stage the rules carrying that stage name,
    in the order of [rules]. *)
Definition schedule (RULESET : Ruleset) : list Rule :=
  s ← default [] (execution_order RULESET);
  filter (fun r => stage r = s) (rules RULESET).

(** Trying a sequence of rules one after the other: each rule is checked
    against the context its predecessors left, and its effect is applied
    before the next rule is looked at. *)
Definition try_next (acc : result Context) (rule : Rule) : result Context :=
  ctx ← acc;
  matched ← evalCond ctx (when rule);
  Ok (if matched : bool then applyThen ctx rule else ctx).

Definition try_in_order (rs : list Rule) (ctx : Context) : result Context :=
  foldl try_next (Ok ctx) rs.

(** The context a run starts from. *)
Definition start (input : value) : Context :=
  {| input := input;
     derived :=
       {| gpa_band := computeGpaBand (JS.get (Some input) "gpa_unweighted");
          time_window := computeTimeWindow (JS.get (Some input) "grade_level")
                                           (JS.get (Some input) "grade_month_bucket") |};
     state := initState |}.

(** An input that the engine is written for: not [null], and with a GPA
    that [>=] compares as it is (a number; or nothing, [null] or a boolean),
    not a text or an object that would be converted first. *)
Definition plain_input (input : value) : Prop :=
  input <> VNull /\ JS.exact_operand (JS.get (Some input) "gpa_unweighted") = true.

(** The seven suppression flags. *)
Definition flags : list string :=
  ["cc"; "ap"; "middle_college"; "testing"; "internships"; "extracurriculars"; "essays"].

(** A sequence without its repetitions: every value at the place of its
    first occurrence. *)
Fixpoint first_occurrences (l : list string) : list string :=
  match l with
  | [] => []
  | x :: rest => x :: filter (fun y => y ≠ x) (first_occurrences rest)
  end.

(** All lines that a sequence of fired rules adds to one category. *)
Definition added (category : Effect -> option (list string)) (fired : list Rule) : list string :=
  r ← fired; default [] (category (default no_effect (then_ r))).

(** A sequence of effect applications: the rules that fired, each applied
    to the context the previous ones left. *)
Definition apply_each (fired : list Rule) (ctx : Context) : Context :=
  foldl applyThen ctx fired.



Definition is_object (cond : jsval) : Prop :=
  match cond with Some (VObj _) | Some (VArr _) => True | _ => False end.

(** A walk that stays on data: every part of the path is an own property of
    the value reached before it, until the path ends or a [null] is reached
    (where the loop of [getField] stops).  On such a walk a read [cur[p]]
    never goes to a member that a built-in prototype supplies. *)
Fixpoint on_data (cur : jsval) (parts : list string) : bool :=
  match parts with
  | [] => true
  | p :: rest =>
      match cur with
      | None => false
      | Some VNull => true
      | Some _ =>
          match JS.get cur p with
          | Some v => on_data (Some v) rest
          | None => false
          end
      end
  end.

Definition names_data (ctx : Context) (path : string) : bool :=
  on_data (Some (context_value ctx)) (JS.split_dot path).


(** Conditions of the shape the engine is written for, on a context: no
    condition at all, an object whose [all] (or else [any]) entry, when it
    counts, is a list of conditions of that shape, or a plain leaf. *)
Unset Elimination Schemes.
Set Elimination Schemes.

(** One value extends another: it has every own property the other has, at
    every depth, and holds a value of the same kind there.  Lists grow at the
    end, booleans and numbers may change, [null] stays [null]. *)
Unset Elimination Schemes.
Set Elimination Schemes.


(** What a leaf condition evaluates to: the cascade of operator tests of
    [evalCond], for a condition object that neither [all] nor [any] decides. *)
Definition leaf_result (ctx : Context) (cond : jsval) : bool :=
  let val := getField ctx (JS.get cond "field") in
  if bool_decide (is_Some (JS.get cond "exists")) then
    let exists_ :=
      negb (JS.strict_eq val undefined) && negb (JS.strict_eq val (Some VNull))
      && negb (is_empty_array val) in
    if JS.truthy (JS.get cond "exists") then exists_ else negb exists_
  else if bool_decide (is_Some (JS.get cond "eq")) then JS.strict_eq val (JS.get cond "eq")
  else if bool_decide (is_Some (JS.get cond "in")) then
    match JS.get cond "in" with
    | Some (VArr arr) => JS.array_includes arr val
    | _ => false
    end
  else if bool_decide (is_Some (JS.get cond "gte")) then
    JS.is_number val && JS.num_ge (JS.ToNumber val) (JS.ToNumber (JS.get cond "gte"))
  else if bool_decide (is_Some (JS.get cond "contains")) then
    match val with
    | Some (VArr arr) => JS.array_includes arr (JS.get cond "contains")
    | _ => false
    end
  else false.

(** A path does not resolve: walking some first part of it ends on nothing,
    or ends on [null] with parts still to go. *)
Definition unresolved (ctx : Context) (path : jsval) : Prop :=
  exists walked remaining,
    JS.split_dot (JS.ToString path) = walked ++ remaining /\
    (getField_loop (Some (context_value ctx)) walked = None \/
     (getField_loop (Some (context_value ctx)) walked = Some VNull /\ remaining <> [])).

(** The keywords that stand for each suppression flag. *)
Definition keyword_table : list (string * string) :=
  [("testing", "test"); ("cc", "cc"); ("ap", "ap"); ("ap", "honors");
   ("internships", "intern"); ("extracurriculars", "ec"); ("extracurriculars", "club");
   ("middle_college", "middle college")].

Definition occurs_in (kw s : string) : Prop :=
  exists before after, s = before +:+ kw +:+ after.

(** A line mentions something suppressed: its lower-cased text contains a
    keyword of a flag that is true. *)
Definition mentions_suppressed (m : gmap string bool) (line : string) : Prop :=
  exists flag kw,
    (flag, kw) ∈ keyword_table /\ m !! flag = Some true /\
    occurs_in kw (JS.toLowerCase line).

(** The number of items a list is cut to: the configured maximum when it is
    a positive count, the default when the entry is missing (or zero). *)
Definition limit (entry : option Z) (d : nat) : nat :=
  match entry with
  | Some n => if (0 <? n)%Z then Z.to_nat n else d
  | None => d
  end.

Definition count_entry (entry : option Z) : Prop :=
  forall n, entry = Some n -> (0 <= n)%Z.

(** ** Sample data *)

(** A student in grade 11 with a 3.9 GPA who considers the UC system and
    targets UCSD. *)
Definition sample_input : value :=
  VObj [("grade_level", JS.of_Z 11);
        ("grade_month_bucket", VNull);
        ("gpa_unweighted", VNum (Fin 3.9));
        ("systems_considered", VArr [VStr "uc"]);
        ("campus_targets_uc", VArr [VStr "UCSD"])].

Definition sample_context : Context := start sample_input.

(** Two rules of one stage: the first suppresses AP, the second fires only if
    it sees AP suppressed, and then leaves a note. *)
Definition two_rules : Ruleset :=
  {| execution_order := Some ["gates"];
     rules :=
       [ {| stage := "gates"; when := undefined;
            then_ := Some {| add_locked := None; add_viable := None; add_actions := None;
                             add_stop := None; add_notes := None;
                             set_suppress := Some [("ap", VBool true)] |} |};
         {| stage := "gates";
            when := Some (VObj [("field", VStr "state.suppress.ap"); ("eq", VBool true)]);
            then_ := Some {| add_locked := None; add_viable := None; add_actions := None;
                             add_stop := None; add_notes := Some ["AP is off the table"];
                             set_suppress := None |} |} ];
     output_constraints :=
       Some {| max_locked := None; max_viable := None; max_actions := None; max_stop := None |};
     success_templates := None |}.

(** A ruleset that sets no maximum, and one that sets [max_locked] to zero. *)
Definition no_maximum : Ruleset :=
  {| execution_order := None; rules := [];
     output_constraints :=
       Some {| max_locked := None; max_viable := None; max_actions := None; max_stop := None |};
     success_templates := None |}.

Definition zero_max_locked : Ruleset :=
  {| execution_order := None; rules := [];
     output_constraints :=
       Some {| max_locked := Some 0%Z; max_viable := None; max_actions := None; max_stop := None |};
     success_templates := None |}.

Definition zero_max_actions : Ruleset :=
  {| execution_order := None; rules := [];
     output_constraints :=
       Some {| max_locked := None; max_viable := None; max_actions := Some 0%Z;
               max_stop := None |};
     success_templates := None |}.

(** A ruleset that sets three positive maxima. *)
Definition positive_maxima : Ruleset :=
  {| execution_order := None; rules := [];
     output_constraints :=
       Some {| max_locked := Some 2%Z; max_viable := Some 1%Z; max_actions := Some 3%Z;
               max_stop := None |};
     success_templates := None |}.

(** A context after a run in which AP was suppressed and two locked pathways,
    eight actions and six stop lines were collected. *)
Definition busy_context : Context :=
  {| input := sample_input;
     derived := derived sample_context;
     state :=
       {| outputs :=
            {| locked := ["Pathway one"; "Pathway two"];
               viable := [];
               actions := ["Consider AP coursework for rigor"; "Visit two campuses";
                           "Apply early"; "Draft the essay"; "Meet the counselor";
                           "Plan the summer"; "Review the transcript";
                           "Ask for two letters"];
               stop := ["one"; "two"; "three"; "four"; "five"; "six"];
               notes := [] |};
          suppress := <["ap" := true]> (suppress initState) |} |}.




(** A condition with [all], [any] and a leaf operator: [all] decides.  The
    band is "A" and the grade 11, so the second item of [all] fails. *)
Definition all_and_more : jsval :=
  Some (VObj [("any", VArr [VNull]);
              ("all", VArr [VObj [("field", VStr "derived.gpa_band"); ("eq", VStr "A")];
                            VObj [("field", VStr "input.grade_level"); ("gte", JS.of_Z 12)]]);
              ("field", VStr "derived.gpa_band"); ("eq", VStr "A")]).

(** A condition with a [null] under [all], a list under [any] and a leaf
    operator: [any] decides. *)
Definition null_all_and_any : jsval :=
  Some (VObj [("all", VNull); ("any", VArr [VNull]);
              ("field", VStr "derived.gpa_band"); ("eq", VStr "Z")]).


(** The example of the claim: with both [exists] and [eq] in a condition, the
    [exists] test alone decides.  The band is "A", so the [eq] test would
    fail. *)
Definition exists_and_eq : jsval :=
  Some (VObj [("field", VStr "derived.gpa_band"); ("eq", VStr "Z"); ("exists", VBool true)]).

Definition exists_only : jsval :=
  Some (VObj [("field", VStr "derived.gpa_band"); ("exists", VBool true)]).

(** A path through a field the input does not have, under four operators. *)
Definition missing_field (operator : string) (operand : value) : jsval :=
  Some (VObj [("field", VStr "input.transcript.rank"); (operator, operand)]).

(** A context with given derived facts and string sequences. *)
Definition context_with (band window : string) (systems campuses : list string) : Context :=
  {| input := VObj [("systems_considered", lines_value systems);
                    ("campus_targets_uc", lines_value campuses)];
     derived := {| gpa_band := band; time_window := window |};
     state := initState |}.

(** A context with more of everything: three locked and three viable
    pathways, the same eight actions, and ten notes, one of them twice. *)
Definition crowded_context : Context :=
  {| input := sample_input;
     derived := derived sample_context;
     state :=
       {| outputs :=
            {| locked := ["Pathway one"; "Pathway two"; "Pathway three"];
               viable := ["Route one"; "Route two"; "Route three"];
               actions := actions (outputs (state busy_context));
               stop := stop (outputs (state busy_context));
               notes := ["n1"; "n2"; "n1"; "n3"; "n4"; "n5"; "n6"; "n7"; "n8"; "n9"] |};
          suppress := <["ap" := true]> (suppress initState) |} |}.

(** The crowded context under [positive_maxima]: two locked pathways, one
    viable, the first three of the six actions that survive the filter, and
    the first eight notes, "n1" once. *)
Definition crowded_page : Page :=
  {| locked_list := ["Pathway one"; "Pathway two"];
     viable_list := ["Route one"];
     actions_list := ["Visit two campuses"; "Draft the essay"; "Meet the counselor"];
     stop_list := ["one"; "two"; "three"; "four"; "five"; "six"];
     notes_list := ["n1"; "n2"; "n3"; "n4"; "n5"; "n6"; "n7"; "n8"];
     success_box := fallback_text;
     pill_gpa_band := "GPA band: A";
     pill_time_window := "Time window: late" |}.

(** With AP suppressed, the AP line goes, and so does "Apply early", whose
    lower-cased text contains "ap"; the five lines left are shown. *)
Definition busy_page : Page :=
  {| locked_list := ["Pathway one"; "Pathway two"];
     viable_list := [];
     actions_list := ["Visit two campuses"; "Draft the essay"; "Meet the counselor";
                      "Plan the summer"; "Review the transcript"];
     stop_list := ["one"; "two"; "three"; "four"; "five"; "six"];
     notes_list := [];
     success_box := fallback_text;
     pill_gpa_band := "GPA band: A";
     pill_time_window := "Time window: late" |}.

(** ** Notions of the further properties *)

(** A key that a dotted path can name: it has no dot in it. *)
Fixpoint dotless (k : string) : bool :=
  match k with
  | EmptyString => true
  | String.String c rest => negb (Ascii.eqb c ".") && dotless rest
  end.

(** The leaf condition [{field: path, operator: operand}]. *)
Definition leaf (path operator : string) (operand : value) : jsval :=
  Some (VObj [("field", VStr path); (operator, operand)]).

(** The combinator condition [{key: items}], for [all] and [any]. *)
Definition combinator (key : string) (items : list value) : jsval :=
  Some (VObj [(key, VArr items)]).

(** The rules whose stage is listed in [execution_order]. *)
Definition listed_rules (RULESET : Ruleset) : Ruleset :=
  {| execution_order := execution_order RULESET;
     rules := filter (fun r => stage r ∈ default [] (execution_order RULESET)) (rules RULESET);
     output_constraints := output_constraints RULESET;
     success_templates := success_templates RULESET |}.

(** The five accumulators of a context, side by side. *)
Definition categories (ctx : Context) : list (list string) :=
  let o := outputs (state ctx) in [locked o; viable o; actions o; stop o; notes o].

(** Whether a patch sets flag [k]: it maps [k] to [true], and [k] is a key
    that an assignment stores. *)
Definition sets_flag (k : string) (entries : list (string * value)) : bool :=
  existsb (fun kv => String.eqb kv.1 k && JS.strict_eq (Some kv.2) (Some (VBool true))
                     && negb (String.eqb kv.1 "__proto__")) entries.

(** A context has absorbed a rule: it holds every line the effect of the
    rule adds, and every flag the effect sets is true in it. *)
Definition absorbed (rule : Rule) (ctx : Context) : Prop :=
  let t := default no_effect (then_ rule) in
  let o := outputs (state ctx) in
  Forall2 (fun items acc => Forall (fun x => x ∈ acc) (default [] items))
    [add_locked t; add_viable t; add_actions t; add_stop t; add_notes t] (categories ctx) /\
  (forall k, sets_flag k (default [] (set_suppress t)) = true ->
     suppress (state ctx) !! k = Some true).

(** A context with another suppression record. *)
Definition with_suppress (ctx : Context) (m : gmap string bool) : Context :=
  {| input := input ctx;
     derived := derived ctx;
     state := {| outputs := outputs (state ctx); suppress := m |} |}.

(** A page without its list of actions. *)
Definition without_actions (page : Page) : Page :=
  {| locked_list := locked_list page;
     viable_list := viable_list page;
     actions_list := [];
     stop_list := stop_list page;
     notes_list := notes_list page;
     success_box := success_box page;
     pill_gpa_band := pill_gpa_band page;
     pill_time_window := pill_time_window page |}.

(** The four narratives of the UC system among the template keys. *)
Definition uc_narratives : list string :=
  ["access_uc"; "floor_guarded_uc"; "mid_uc_early"; "mid_uc_late"].

(** ** Further sample data *)

(** The two rules of [two_rules], by name. *)
Definition rule_sets_ap : Rule :=
  {| stage := "gates"; when := undefined;
     then_ := Some {| add_locked := None; add_viable := None; add_actions := None;
                      add_stop := None; add_notes := None;
                      set_suppress := Some [("ap", VBool true)] |} |}.

Definition rule_reads_ap : Rule :=
  {| stage := "gates";
     when := Some (VObj [("field", VStr "state.suppress.ap"); ("eq", VBool true)]);
     then_ := Some {| add_locked := None; add_viable := None; add_actions := None;
                      add_stop := None; add_notes := Some ["AP is off the table"];
                      set_suppress := None |} |}.

(** The context that the run over [two_rules] ends in. *)
Definition after_two_rules : Context :=
  {| input := sample_input;
     derived := derived sample_context;
     state :=
       {| outputs := {| locked := []; viable := []; actions := []; stop := [];
                        notes := ["AP is off the table"] |};
          suppress := <["ap" := true]> (suppress initState) |} |}.

(** Two rules without condition that add lines, some of them twice and some
    that the other rule adds as well. *)
Definition repeating_rules : Ruleset :=
  {| execution_order := Some ["collect"];
     rules :=
       [ {| stage := "collect"; when := undefined;
            then_ := Some {| add_locked := Some ["Pathway two"; "Pathway three"];
                             add_viable := None;
                             add_actions := Some ["Visit two campuses"; "Book a tour"];
                             add_stop := None;
                             add_notes := Some ["n1"; "n2"; "n1"];
                             set_suppress := None |} |};
         {| stage := "collect"; when := undefined;
            then_ := Some {| add_locked := Some ["Pathway three"; "Pathway four"];
                             add_viable := None;
                             add_actions := None;
                             add_stop := None;
                             add_notes := Some ["n2"; "n3"];
                             set_suppress := None |} |} ];
     output_constraints :=
       Some {| max_locked := None; max_viable := None; max_actions := None;
               max_stop := None |};
     success_templates := None |}.

(** The busy context after the stage of [repeating_rules]: two locked
    pathways, one action and three notes are new, at the end. *)
Definition busy_after : Context :=
  {| input := sample_input;
     derived := derived sample_context;
     state :=
       {| outputs :=
            {| locked := ["Pathway one"; "Pathway two"; "Pathway three"; "Pathway four"];
               viable := [];
               actions := actions (outputs (state busy_context)) ++ ["Book a tour"];
               stop := stop (outputs (state busy_context));
               notes := ["n1"; "n2"; "n3"] |};
          suppress := <["ap" := true]> (suppress initState) |} |}.

(** What the run of [repeating_rules] on the sample input collects, and the
    page rendered from it. *)
Definition collected_context : Context :=
  {| input := sample_input;
     derived := derived sample_context;
     state :=
       {| outputs :=
            {| locked := ["Pathway two"; "Pathway three"; "Pathway four"];
               viable := [];
               actions := ["Visit two campuses"; "Book a tour"];
               stop := [];
               notes := ["n1"; "n2"; "n3"] |};
          suppress := suppress initState |} |}.

Definition collected_page : Page :=
  {| locked_list := ["Pathway two"; "Pathway three"; "Pathway four"];
     viable_list := [];
     actions_list := ["Visit two campuses"; "Book a tour"];
     stop_list := [];
     notes_list := ["n1"; "n2"; "n3"];
     success_box := fallback_text;
     pill_gpa_band := "GPA band: A";
     pill_time_window := "Time window: late" |}.

(** A ruleset whose maxima are negative. *)
Definition negative_maxima : Ruleset :=
  {| execution_order := None; rules := [];
     output_constraints :=
       Some {| max_locked := Some (-1)%Z; max_viable := Some (-1)%Z; max_actions := Some (-2)%Z;
          max_stop := None |};
     success_templates := None |}.

(** The busy context under [negative_maxima]: the last locked pathway and the
    last two of the six surviving actions are gone. *)
Definition short_page : Page :=
  {| locked_list := ["Pathway one"];
     viable_list := [];
     actions_list := ["Visit two campuses"; "Draft the essay"; "Meet the counselor";
                      "Plan the summer"];
     stop_list := ["one"; "two"; "three"; "four"; "five"; "six"];
     notes_list := [];
     success_box := fallback_text;
     pill_gpa_band := "GPA band: A";
     pill_time_window := "Time window: late" |}.




(** * Properties *)

(** ** Facts about the operators *)

Lemma num_ge_Fin (x y : Q) : JS.num_ge (Fin x) (Fin y) = true <-> (y <= x)%Q.
Proof. apply Qle_bool_iff. Qed.

Lemma num_ge_Fin_false (x y : Q) : JS.num_ge (Fin x) (Fin y) = false <-> (x < y)%Q.
Proof.
  rewrite <- Bool.not_true_iff_false, num_ge_Fin.
  split; [apply Qnot_le_lt | apply Qlt_not_le].
Qed.

Lemma strict_eq_string (a : jsval) (s : string) :
  JS.strict_eq a (Some (VStr s)) = true <-> a = Some (VStr s).
Proof.
  destruct a as [[| | |t| |]|]; simpl; try (split; [discriminate | congruence]).
  rewrite String.eqb_eq. split; congruence.
Qed.

Lemma strict_eq_grade (gradeLevel : jsval) (n : Z) :
  JS.strict_eq gradeLevel (Some (JS.of_Z n)) = true <-> is_grade gradeLevel n.
Proof.
  unfold is_grade, JS.of_Z. split.
  - destruct gradeLevel as [[| |[|q]| | |]|]; simpl; try discriminate.
    intros H. exists q. split; [reflexivity | by apply Qeq_bool_iff].
  - intros (q & -> & H). simpl. by apply Qeq_bool_iff.
Qed.

Lemma strict_eq_grade_false (gradeLevel : jsval) (n : Z) :
  JS.strict_eq gradeLevel (Some (JS.of_Z n)) = false <-> ~ is_grade gradeLevel n.
Proof. rewrite <- strict_eq_grade. symmetry. apply Bool.not_true_iff_false. Qed.

Lemma is_grade_unique (gradeLevel : jsval) (n m : Z) :
  is_grade gradeLevel n -> is_grade gradeLevel m -> n = m.
Proof.
  intros (q & -> & Hn) (q' & [= <-] & Hm).
  apply inject_Z_injective. by rewrite <- Hn, <- Hm.
Qed.

Ltac clash_of_grades :=
  exfalso;
  match goal with
  | H1 : is_grade ?g ?n, H2 : is_grade ?g ?m |- _ =>
      let E := fresh in pose proof (is_grade_unique _ _ _ H1 H2) as E; discriminate E
  end.

(** ** Derived facts *)

Lemma fire_keeps_facts (rule : Rule) (ctx ctx' : Context) :
  fire rule ctx = Ok ctx' -> input ctx' = input ctx /\ derived ctx' = derived ctx.
Proof.
  unfold fire. by destruct (evalCond ctx (when rule)) as [[]|]; simpl; intros [= <-].
Qed.

Lemma for_rules_keeps_facts (rs : list Rule) (ctx ctx' : Context) :
  for_rules rs ctx = Ok ctx' -> input ctx' = input ctx /\ derived ctx' = derived ctx.
Proof.
  revert ctx. induction rs as [|r rs IH]; intros ctx; simpl; [by intros [= <-]|].
  destruct (fire r ctx) as [ctx1|] eqn:Hfire; simpl; [|discriminate].
  intros Hrest. destruct (IH ctx1 Hrest) as [-> ->]. by eapply fire_keeps_facts.
Qed.

Lemma for_stages_keeps_facts (RULESET : Ruleset) (stages : list string) (ctx ctx' : Context) :
  for_stages RULESET stages ctx = Ok ctx' ->
  input ctx' = input ctx /\ derived ctx' = derived ctx.
Proof.
  revert ctx. induction stages as [|s stages IH]; intros ctx; simpl; [by intros [= <-]|].
  destruct (for_rules _ ctx) as [ctx1|] eqn:Hstage; simpl; [|discriminate].
  intros Hrest. destruct (IH ctx1 Hrest) as [-> ->]. by eapply for_rules_keeps_facts.
Qed.

(** Claim C7.  The two derived facts follow their tables.  For a GPA [g]:
    band A iff [g >= 3.80], B iff [3.50 <= g < 3.80], C iff [3.20 <= g < 3.50],
    D iff [2.80 <= g < 3.20], E iff [g < 2.80], and E as well when the GPA is
    not a number.  For the time window: grades 9 and 10 give early, 11 gives
    late, 12 gives closed when the month bucket is "october_or_later" and
    final otherwise, and any other grade value gives early.  The context a
    run returns carries the two facts as computed from the input: no rule
    changes them. *)
Theorem C7_derived_fact_tables :
  (forall g : Q,
     (computeGpaBand (Some (VNum (Fin g))) = "A" <-> (3.80 <= g)%Q) /\
     (computeGpaBand (Some (VNum (Fin g))) = "B" <-> (3.50 <= g)%Q /\ (g < 3.80)%Q) /\
     (computeGpaBand (Some (VNum (Fin g))) = "C" <-> (3.20 <= g)%Q /\ (g < 3.50)%Q) /\
     (computeGpaBand (Some (VNum (Fin g))) = "D" <-> (2.80 <= g)%Q /\ (g < 3.20)%Q) /\
     (computeGpaBand (Some (VNum (Fin g))) = "E" <-> (g < 2.80)%Q)) /\
  computeGpaBand (Some (VNum NaN)) = "E" /\
  computeGpaBand undefined = "E" /\
  (forall gradeLevel monthBucket : jsval,
     (is_grade gradeLevel 9 \/ is_grade gradeLevel 10 ->
        computeTimeWindow gradeLevel monthBucket = "early") /\
     (is_grade gradeLevel 11 -> computeTimeWindow gradeLevel monthBucket = "late") /\
     (is_grade gradeLevel 12 -> monthBucket = Some (VStr "october_or_later") ->
        computeTimeWindow gradeLevel monthBucket = "closed") /\
     (is_grade gradeLevel 12 -> monthBucket <> Some (VStr "october_or_later") ->
        computeTimeWindow gradeLevel monthBucket = "final") /\
     (~ is_grade gradeLevel 9 -> ~ is_grade gradeLevel 10 ->
      ~ is_grade gradeLevel 11 -> ~ is_grade gradeLevel 12 ->
        computeTimeWindow gradeLevel monthBucket = "early")) /\
  (forall RULESET input ctx,
     runEngine RULESET input = Ok ctx ->
     gpa_band (derived ctx) = computeGpaBand (JS.get (Some input) "gpa_unweighted") /\
     time_window (derived ctx)
     = computeTimeWindow (JS.get (Some input) "grade_level")
         (JS.get (Some input) "grade_month_bucket")).
Proof.
  split; [| split; [reflexivity | split; [reflexivity | split]]].
  - intros g. unfold computeGpaBand. simpl JS.ToNumber.
    destruct (JS.num_ge (Fin g) (Fin 3.80)) eqn:HA;
    destruct (JS.num_ge (Fin g) (Fin 3.50)) eqn:HB;
    destruct (JS.num_ge (Fin g) (Fin 3.20)) eqn:HC;
    destruct (JS.num_ge (Fin g) (Fin 2.80)) eqn:HD;
    rewrite ?num_ge_Fin, ?num_ge_Fin_false in *;
    repeat split; intros; try discriminate; try lra.
  - intros gradeLevel monthBucket. unfold computeTimeWindow.
    destruct (JS.strict_eq gradeLevel (Some (JS.of_Z 9))) eqn:H9;
    destruct (JS.strict_eq gradeLevel (Some (JS.of_Z 10))) eqn:H10;
    destruct (JS.strict_eq gradeLevel (Some (JS.of_Z 11))) eqn:H11;
    destruct (JS.strict_eq gradeLevel (Some (JS.of_Z 12))) eqn:H12;
    destruct (JS.strict_eq monthBucket (Some (VStr "october_or_later"))) eqn:Hm;
    rewrite ?strict_eq_grade, ?strict_eq_grade_false, ?strict_eq_string in *;
    simpl; repeat split; intros; try reflexivity; try tauto;
    try clash_of_grades.
    all: apply Bool.not_true_iff_false in Hm; rewrite strict_eq_string in Hm; tauto.
  - intros RULESET input ctx Hrun. unfold runEngine in Hrun. cbv zeta in Hrun.
    destruct (JS.is_nullish (Some input)); [discriminate|].
    apply for_stages_keeps_facts in Hrun as [_ ->]. done.
Qed.

(** The test values of the specification. *)
Example gpa_band_values :
  computeGpaBand (Some (VNum (Fin 3.80))) = "A" /\
  computeGpaBand (Some (VNum (Fin 3.79))) = "B" /\
  computeGpaBand (Some (VNum (Fin 3.50))) = "B" /\
  computeGpaBand (Some (VNum (Fin 3.49))) = "C" /\
  computeGpaBand (Some (VNum (Fin 3.20))) = "C" /\
  computeGpaBand (Some (VNum (Fin 3.19))) = "D" /\
  computeGpaBand (Some (VNum (Fin 2.80))) = "D" /\
  computeGpaBand (Some (VNum (Fin 2.79))) = "E".
Proof. repeat split; reflexivity. Qed.

Example time_window_values :
  computeTimeWindow (Some (JS.of_Z 9)) (Some VNull) = "early" /\
  computeTimeWindow (Some (JS.of_Z 10)) (Some VNull) = "early" /\
  computeTimeWindow (Some (JS.of_Z 11)) (Some VNull) = "late" /\
  computeTimeWindow (Some (JS.of_Z 12)) (Some (VStr "october_or_later")) = "closed" /\
  computeTimeWindow (Some (JS.of_Z 12)) (Some (VStr "september")) = "final" /\
  computeTimeWindow (Some (JS.of_Z 13)) (Some VNull) = "early" /\
  computeTimeWindow (Some (VNum NaN)) (Some VNull) = "early".
Proof. repeat split; reflexivity. Qed.

(** ** The recursion of [evalCond] *)

Lemma le_foldr_max {A : Type} (f : A -> nat) (l : list A) (x : A) :
  x ∈ l -> f x <= foldr Nat.max 0 (map f l).
Proof.
  induction 1 as [x l | x y l _ IH]; simpl; lia.
Qed.

Lemma depth_item (items : list value) (e : value) :
  e ∈ items -> depth e < depth (VArr items).
Proof.
  intros H. simpl. pose proof (le_foldr_max depth items e H). lia.
Qed.

Lemma depth_own (k : string) (props : list (string * value)) (v : value) :
  JS.own k props = Some v -> depth v < depth (VObj props).
Proof.
  intros H.
  assert (exists k', (k', v) ∈ props) as [k' Hin].
  { induction props as [|[k' v'] rest IH]; simpl in H; [discriminate|].
    destruct (String.eqb k' k).
    - injection H as ->. exists k'. left.
    - destruct (IH H) as [k'' ?]. exists k''. by right. }
  pose proof (le_foldr_max (fun kv => depth kv.2) props _ Hin). simpl in *. lia.
Qed.

Lemma at_index_elem {A : Type} (l : list A) (i : nat) (p : string) (x : A) :
  JS.at_index l i p = Some x -> x ∈ l.
Proof.
  revert i. induction l as [|y rest IH]; intros i; simpl; [discriminate|].
  destruct (String.eqb (JS.index_key i) p).
  - intros [= ->]. left.
  - intros H. right. eauto.
Qed.

(** An array read out of a condition nests less deep than the condition. *)
Lemma depth_get_array (cond : jsval) (k : string) (items : list value) :
  JS.get cond k = Some (VArr items) -> depth (VArr items) < depth_of cond.
Proof.
  destruct cond as [[| | |s|l|props]|]; simpl JS.get; try discriminate.
  - destruct (String.eqb k "length"); [discriminate|].
    destruct (JS.at_index _ 0 k); discriminate.
  - destruct (String.eqb k "length"); [discriminate|].
    intros H. apply at_index_elem in H. by apply depth_item.
  - apply depth_own.
Qed.

Lemma every_items_ext {A : Type} (f g : A -> result bool) (items : list A) :
  (forall e, e ∈ items -> f e = g e) -> JS.every_items f items = JS.every_items g items.
Proof.
  induction items as [|x rest IH]; intros H; simpl; [reflexivity|].
  rewrite (H x) by left. destruct (g x) as [[]|]; simpl; try reflexivity.
  apply IH. intros e He. apply H. by right.
Qed.

Lemma some_items_ext {A : Type} (f g : A -> result bool) (items : list A) :
  (forall e, e ∈ items -> f e = g e) -> JS.some_items f items = JS.some_items g items.
Proof.
  induction items as [|x rest IH]; intros H; simpl; [reflexivity|].
  rewrite (H x) by left. destruct (g x) as [[]|]; simpl; try reflexivity.
  apply IH. intros e He. apply H. by right.
Qed.

(** The body calls [self] only on conditions that nest less deep. *)
Lemma evalCond_body_ext (f g : Context -> jsval -> result bool) (ctx : Context) (cond : jsval) :
  (forall e, depth_of e < depth_of cond -> f ctx e = g ctx e) ->
  evalCond_body f ctx cond = evalCond_body g ctx cond.
Proof.
  intros H. unfold evalCond_body.
  destruct (JS.is_nullish cond); [reflexivity|].
  destruct (JS.truthy (JS.get cond "all")).
  { destruct (JS.get cond "all") as [[| | | |items|]|] eqn:Hall; try reflexivity.
    simpl. apply every_items_ext. intros e He. apply H.
    pose proof (depth_get_array _ _ _ Hall). pose proof (depth_item _ _ He).
    simpl in *. lia. }
  destruct (JS.truthy (JS.get cond "any")); [|reflexivity].
  destruct (JS.get cond "any") as [[| | | |items|]|] eqn:Hany; try reflexivity.
  simpl. apply some_items_ext. intros e He. apply H.
  pose proof (depth_get_array _ _ _ Hany). pose proof (depth_item _ _ He).
  simpl in *. lia.
Qed.

Lemma evalCond_rec_enough (ctx : Context) (n m : nat) (cond : jsval) :
  depth_of cond <= n -> depth_of cond <= m ->
  evalCond_rec n ctx cond = evalCond_rec m ctx cond.
Proof.
  revert m cond. induction n as [|n IH]; intros [|m] cond Hn Hm; simpl;
    try reflexivity; apply evalCond_body_ext; intros e He; try lia.
  apply IH; lia.
Qed.

(** [evalCond] is the function that the source defines by recursion: it
    satisfies the defining equation, with itself at the recursive calls. *)
Lemma evalCond_unfold (ctx : Context) (cond : jsval) :
  evalCond ctx cond = evalCond_body evalCond ctx cond.
Proof.
  unfold evalCond at 1. destruct (depth_of cond) as [|n] eqn:Hd; simpl;
    apply evalCond_body_ext; intros e He; try lia.
  unfold evalCond. apply evalCond_rec_enough; lia.
Qed.

(** ** Condition evaluation *)

Lemma has_object (k : string) (cond : jsval) :
  is_object cond -> JS.has k cond = Ok (bool_decide (is_Some (JS.get cond k))).
Proof. by destruct cond as [[]|]. Qed.

Lemma object_not_nullish (cond : jsval) : is_object cond -> JS.is_nullish cond = false.
Proof. by destruct cond as [[]|]. Qed.

(** A condition object that neither [all] nor [any] decides is a leaf. *)
Lemma evalCond_leaf (ctx : Context) (cond : jsval) :
  is_object cond ->
  JS.truthy (JS.get cond "all") = false ->
  JS.truthy (JS.get cond "any") = false ->
  evalCond ctx cond = Ok (leaf_result ctx cond).
Proof.
  intros Hobj Hall Hany. rewrite evalCond_unfold. unfold evalCond_body, leaf_result.
  rewrite (object_not_nullish _ Hobj), Hall, Hany, !(has_object _ _ Hobj). simpl.
  repeat (case_bool_decide; simpl; [reflexivity|]). reflexivity.
Qed.

Lemma evalCond_all (ctx : Context) (cond : jsval) :
  JS.truthy (JS.get cond "all") = true ->
  evalCond ctx cond = JS.every (JS.get cond "all") (evalCond ctx).
Proof.
  intros Hall. rewrite evalCond_unfold. unfold evalCond_body.
  destruct (JS.is_nullish cond) eqn:Hn; [by destruct cond as [[]|]|].
  by rewrite Hall.
Qed.

Lemma evalCond_any (ctx : Context) (cond : jsval) :
  JS.truthy (JS.get cond "all") = false ->
  JS.truthy (JS.get cond "any") = true ->
  evalCond ctx cond = JS.some (JS.get cond "any") (evalCond ctx).
Proof.
  intros Hall Hany. rewrite evalCond_unfold. unfold evalCond_body.
  destruct (JS.is_nullish cond) eqn:Hn; [by destruct cond as [[]|]|].
  by rewrite Hall, Hany.
Qed.

Lemma evalCond_absent (ctx : Context) (cond : jsval) :
  JS.is_nullish cond = true -> evalCond ctx cond = Ok true.
Proof. intros H. rewrite evalCond_unfold. unfold evalCond_body. by rewrite H. Qed.






(** Paths that name data of the sample context, and paths that do not: a
    name that the value does not own ends the walk outside the data. *)
Example paths_on_the_sample_context :
  names_data sample_context "state.suppress.ap" = true /\
  names_data sample_context "input.campus_targets_uc.0" = true /\
  names_data sample_context "input.grade_month_bucket.anything" = true /\
  names_data sample_context "input.transcript.rank" = false /\
  names_data sample_context "state.suppress.constructor" = false /\
  names_data sample_context "derived.gpa_band.big" = false.
Proof. repeat split; vm_compute; reflexivity. Qed.













Example several_keys_values :
  evalCond sample_context all_and_more = Ok false /\
  evalCond sample_context null_all_and_any = Ok true /\
  evalCond sample_context exists_and_eq = Ok true.
Proof. repeat split; vm_compute; reflexivity. Qed.

(** ** Field resolution *)

Lemma getField_loop_undefined (parts : list string) : getField_loop undefined parts = undefined.
Proof. by destruct parts. Qed.

Lemma getField_loop_null (parts : list string) :
  parts <> [] -> getField_loop (Some VNull) parts = undefined.
Proof. by destruct parts. Qed.

Lemma getField_loop_app (cur : jsval) (walked remaining : list string) :
  getField_loop cur (walked ++ remaining)
  = getField_loop (getField_loop cur walked) remaining.
Proof.
  revert cur. induction walked as [|p walked IH]; intros cur; simpl; [reflexivity|].
  destruct (JS.is_nullish cur); [by rewrite getField_loop_undefined | apply IH].
Qed.

Lemma unresolved_undefined (ctx : Context) (path : jsval) :
  unresolved ctx path -> getField ctx path = undefined.
Proof.
  intros (walked & remaining & Hsplit & [Hnone | [Hnull Hmore]]);
    unfold getField; rewrite Hsplit, getField_loop_app.
  - rewrite Hnone. apply getField_loop_undefined.
  - rewrite Hnull. by apply getField_loop_null.
Qed.

Lemma array_includes_undefined (arr : list value) : JS.array_includes arr undefined = false.
Proof.
  unfold JS.array_includes. induction arr as [|e arr IH]; [reflexivity|].
  cbn [existsb]. rewrite IH. by destruct e as [| |[]| | |].
Qed.

(** Claim C6.  When the field path of a leaf condition does not resolve,
    [getField] gives [undefined] and raises nothing, and the condition is
    decided as follows: an [exists] test gives the negation of its comparand
    (false for [exists: true], true for [exists: false]); without an
    [exists] key the result is false, whichever of eq, in, gte and contains
    the condition carries. *)
Theorem C6_unresolved_field_fails_all_but_exists_false (ctx : Context) (cond : jsval) :
  is_object cond ->
  JS.truthy (JS.get cond "all") = false ->
  JS.truthy (JS.get cond "any") = false ->
  unresolved ctx (JS.get cond "field") ->
  getField ctx (JS.get cond "field") = undefined /\
  (forall comparand, JS.get cond "exists" = Some comparand ->
     evalCond ctx cond = Ok (negb (JS.truthy (Some comparand)))) /\
  (JS.get cond "exists" = None -> evalCond ctx cond = Ok false).
Proof.
  intros Hobj Hall Hany Hun. pose proof (unresolved_undefined _ _ Hun) as Hval.
  split; [exact Hval|].
  rewrite evalCond_leaf by done. unfold leaf_result. rewrite Hval. split.
  - intros comparand ->. rewrite bool_decide_eq_true_2 by eauto. simpl.
    by destruct (JS.truthy (Some comparand)).
  - intros ->. rewrite bool_decide_eq_false_2 by (intros [? [=]]). f_equal.
    case_bool_decide as Heq.
    { destruct Heq as [v ->]. by destruct v. }
    case_bool_decide as Hin.
    { destruct (JS.get cond "in") as [[| | | |arr|]|]; try reflexivity.
      apply array_includes_undefined. }
    case_bool_decide; [reflexivity|].
    case_bool_decide; reflexivity.
Qed.

(** The input has no [transcript]: the walk stops there, before [rank]. *)
Lemma C6_missing_field_exists_false :
  getField sample_context (JS.get (missing_field "exists" (VBool false)) "field") = undefined /\
  (forall comparand, JS.get (missing_field "exists" (VBool false)) "exists" = Some comparand ->
     evalCond sample_context (missing_field "exists" (VBool false))
     = Ok (negb (JS.truthy (Some comparand)))) /\
  (JS.get (missing_field "exists" (VBool false)) "exists" = None ->
     evalCond sample_context (missing_field "exists" (VBool false)) = Ok false).
Proof.
  apply (C6_unresolved_field_fails_all_but_exists_false sample_context
           (missing_field "exists" (VBool false)));
    [exact I | reflexivity | reflexivity |].
  exists ["input"; "transcript"], ["rank"]. split; [reflexivity|].
  left. vm_compute. reflexivity.
Defined.

Example missing_field_by_operator :
  evalCond sample_context (missing_field "exists" (VBool false)) = Ok true /\
  evalCond sample_context (missing_field "exists" (VBool true)) = Ok false /\
  evalCond sample_context (missing_field "eq" VNull) = Ok false /\
  evalCond sample_context (missing_field "in" (VArr [VNull])) = Ok false /\
  evalCond sample_context (missing_field "gte" (JS.of_Z 0)) = Ok false /\
  evalCond sample_context (missing_field "contains" (VStr "x")) = Ok false.
Proof. repeat split; vm_compute; reflexivity. Qed.

(** ** Suppression state *)

Lemma strict_eq_true (v : value) :
  JS.strict_eq (Some v) (Some (VBool true)) = true <-> v = VBool true.
Proof.
  destruct v as [|[]| | | |]; simpl; split; congruence.
Qed.

Lemma suppress_entries_keep (entries : list (string * value)) (m : gmap string bool)
    (k : string) :
  m !! k = Some true -> fold_left suppress_entry entries m !! k = Some true.
Proof.
  revert m. induction entries as [|[k' v] rest IH]; intros m H; simpl; [done|].
  apply IH. unfold suppress_entry. cbn [fst snd].
  destruct (JS.strict_eq (Some v) (Some (VBool true))); [|done].
  destruct (String.eqb k' "__proto__"); [done|].
  rewrite lookup_insert. by case_decide.
Qed.

Lemma suppress_entries_other (entries : list (string * value)) (m : gmap string bool)
    (k : string) :
  (k, VBool true) ∉ entries -> fold_left suppress_entry entries m !! k = m !! k.
Proof.
  revert m. induction entries as [|[k' v] rest IH]; intros m H; simpl; [done|].
  rewrite IH by (intros ?; apply H; by right).
  unfold suppress_entry. cbn [fst snd].
  destruct (JS.strict_eq (Some v) (Some (VBool true))) eqn:Hv; [|done].
  apply strict_eq_true in Hv as ->.
  destruct (String.eqb k' "__proto__"); [done|].
  rewrite lookup_insert_ne; [done|]. intros ->. apply H. left.
Qed.

Lemma suppress_entries_set (entries : list (string * value)) (m : gmap string bool)
    (k : string) :
  k <> "__proto__" ->
  (k, VBool true) ∈ entries -> fold_left suppress_entry entries m !! k = Some true.
Proof.
  intros Hk. revert m. induction entries as [|[k' v] rest IH]; intros m H; simpl.
  - by apply elem_of_nil in H.
  - apply elem_of_cons in H as [[= <- <-] | H]; [|by apply IH].
    apply suppress_entries_keep. unfold suppress_entry.
    cbn [fst snd JS.strict_eq Bool.eqb].
    rewrite (proj2 (String.eqb_neq k "__proto__")) by done. by rewrite lookup_insert_eq.
Qed.

Lemma suppress_entries_proto (entries : list (string * value)) (m : gmap string bool) :
  fold_left suppress_entry entries m !! "__proto__" = m !! "__proto__".
Proof.
  revert m. induction entries as [|[k' v] rest IH]; intros m; simpl; [done|].
  rewrite IH. unfold suppress_entry. cbn [fst snd].
  destruct (JS.strict_eq (Some v) (Some (VBool true))); [|done].
  destruct (String.eqb_spec k' "__proto__") as [->|Hne]; [done|].
  by rewrite lookup_insert_ne.
Qed.

Lemma applySuppress_keeps (st : State) (patch : option (list (string * value))) (k : string) :
  suppress st !! k = Some true -> suppress (applySuppress st patch) !! k = Some true.
Proof.
  destruct patch as [entries|]; simpl; [apply suppress_entries_keep | done].
Qed.

Lemma applyThen_keeps (ctx : Context) (rule : Rule) (k : string) :
  suppress (state ctx) !! k = Some true ->
  suppress (state (applyThen ctx rule)) !! k = Some true.
Proof. intros H. unfold applyThen. simpl. by apply applySuppress_keeps. Qed.

Lemma fire_keeps (rule : Rule) (ctx ctx' : Context) (k : string) :
  fire rule ctx = Ok ctx' ->
  suppress (state ctx) !! k = Some true -> suppress (state ctx') !! k = Some true.
Proof.
  unfold fire. destruct (evalCond ctx (when rule)) as [[]|]; simpl; intros [= <-]; [|done].
  apply applyThen_keeps.
Qed.

Lemma for_rules_keeps (rs : list Rule) (ctx ctx' : Context) (k : string) :
  for_rules rs ctx = Ok ctx' ->
  suppress (state ctx) !! k = Some true -> suppress (state ctx') !! k = Some true.
Proof.
  revert ctx. induction rs as [|r rs IH]; intros ctx; simpl; [by intros [= <-]|].
  destruct (fire r ctx) as [ctx1|] eqn:Hfire; simpl; [|discriminate].
  intros Hrest Hk. apply (IH ctx1 Hrest). by eapply fire_keeps.
Qed.

Lemma for_stages_keeps (RULESET : Ruleset) (stages : list string) (ctx ctx' : Context)
    (k : string) :
  for_stages RULESET stages ctx = Ok ctx' ->
  suppress (state ctx) !! k = Some true -> suppress (state ctx') !! k = Some true.
Proof.
  revert ctx. induction stages as [|s stages IH]; intros ctx; simpl; [by intros [= <-]|].
  destruct (for_rules _ ctx) as [ctx1|] eqn:Hstage; simpl; [|discriminate].
  intros Hrest Hk. apply (IH ctx1 Hrest). by eapply for_rules_keeps.
Qed.

(** Claim C3.  The seven flags start false (and nothing else is in the
    suppression record).  A flag that is true stays true under every patch,
    under every rule effect, and through every run of the loops of the
    engine.  A patch changes exactly the flags it maps to [true] (and sets
    them, but for the key ["__proto__"], under which an assignment stores
    nothing): an entry [k: false] leaves the state as it was. *)
Theorem C3_suppression_is_monotonic :
  (forall k, suppress initState !! k = if bool_decide (k ∈ flags) then Some false else None) /\
  (forall st patch k,
     suppress st !! k = Some true -> suppress (applySuppress st patch) !! k = Some true) /\
  (forall st entries k,
     k <> "__proto__" ->
     (k, VBool true) ∈ entries -> suppress (applySuppress st (Some entries)) !! k = Some true) /\
  (forall st entries,
     suppress (applySuppress st (Some entries)) !! "__proto__" = suppress st !! "__proto__") /\
  (forall st entries k,
     (k, VBool true) ∉ entries ->
     suppress (applySuppress st (Some entries)) !! k = suppress st !! k) /\
  (forall st k, applySuppress st (Some [(k, VBool false)]) = st) /\
  (forall ctx rule k,
     suppress (state ctx) !! k = Some true ->
     suppress (state (applyThen ctx rule)) !! k = Some true) /\
  (forall RULESET stages ctx ctx' k,
     for_stages RULESET stages ctx = Ok ctx' ->
     suppress (state ctx) !! k = Some true -> suppress (state ctx') !! k = Some true).
Proof.
  repeat split.
  - intros k. unfold initState, flags. cbn [suppress]. unfold list_to_map.
    cbn [fold_right fst snd].
    repeat (rewrite lookup_insert; destruct (decide (_ = k)) as [<-|?]; [reflexivity|]).
    rewrite lookup_empty, bool_decide_eq_false_2; [done|].
    rewrite !elem_of_cons, elem_of_nil. intuition congruence.
  - apply applySuppress_keeps.
  - intros st entries k. simpl. apply suppress_entries_set.
  - intros st entries. simpl. apply suppress_entries_proto.
  - intros st entries k. simpl. apply suppress_entries_other.
  - by intros [o m] k.
  - apply applyThen_keeps.
  - apply for_stages_keeps.
Qed.

Example patch_false_is_ignored :
  let st := applySuppress initState (Some [("cc", VBool true)]) in
  suppress st !! "cc" = Some true /\
  suppress (applySuppress st (Some [("cc", VBool false)])) !! "cc" = Some true.
Proof. split; vm_compute; reflexivity. Qed.

(** ** Accumulators *)

Lemma push_all (items arr : list string) :
  fold_left push_new items arr
  = arr ++ filter (fun y => y ∉ arr) (first_occurrences items).
Proof.
  revert arr. induction items as [|x rest IH]; intros arr; simpl.
  - by rewrite filter_nil, app_nil_r.
  - rewrite IH. unfold push_new. case_bool_decide as Hx.
    + rewrite filter_cons_False by tauto. f_equal.
      rewrite list_filter_filter. apply list_filter_iff. intros y. split; [|tauto].
      intros Hy. split; [done|]. by intros ->.
    + rewrite filter_cons_True by done. rewrite <- app_assoc. simpl. do 2 f_equal.
      rewrite list_filter_filter. apply list_filter_iff. intros y.
      rewrite not_elem_of_app, list_elem_of_singleton. tauto.
Qed.

Lemma filter_not_in_nil (l : list string) : filter (fun y => y ∉ @nil string) l = l.
Proof.
  induction l as [|x l IH]; [done|].
  rewrite filter_cons_True by apply not_elem_of_nil. by rewrite IH.
Qed.

Lemma elem_of_first_occurrences (l : list string) (x : string) :
  x ∈ first_occurrences l <-> x ∈ l.
Proof.
  induction l as [|y rest IH]; simpl; [done|].
  rewrite !elem_of_cons, list_elem_of_filter, IH.
  destruct (decide (x = y)); tauto.
Qed.

Lemma NoDup_first_occurrences (l : list string) : NoDup (first_occurrences l).
Proof.
  induction l as [|x rest IH]; simpl; constructor.
  - rewrite list_elem_of_filter. tauto.
  - by apply NoDup_filter.
Qed.

Lemma applySuppress_outputs (st : State) (patch : option (list (string * value))) :
  outputs (applySuppress st patch) = outputs st.
Proof. by destruct patch. Qed.

Lemma added_cons (category : Effect -> option (list string)) (r : Rule) (rest : list Rule) :
  added category (r :: rest)
  = default [] (category (default no_effect (then_ r))) ++ added category rest.
Proof. reflexivity. Qed.

(** The accumulators after a sequence of effects: all added lines pushed, in
    order, onto what was there. *)
Lemma apply_each_outputs (fired : list Rule) (ctx : Context) :
  let before := outputs (state ctx) in
  let after := outputs (state (apply_each fired ctx)) in
  locked after = fold_left push_new (added add_locked fired) (locked before) /\
  viable after = fold_left push_new (added add_viable fired) (viable before) /\
  actions after = fold_left push_new (added add_actions fired) (actions before) /\
  stop after = fold_left push_new (added add_stop fired) (stop before) /\
  notes after = fold_left push_new (added add_notes fired) (notes before).
Proof.
  revert ctx. induction fired as [|r rest IH]; intros ctx; [done|].
  unfold apply_each in *. simpl foldl. rewrite !added_cons, !fold_left_app.
  specialize (IH (applyThen ctx r)). simpl in IH.
  unfold applyThen in IH at 2 4 6 8 10. simpl in IH.
  rewrite applySuppress_outputs in IH. exact IH.
Qed.

(** Claim C4.  One push appends, in order, the first occurrence of every
    item that is not in the category yet, and moves nothing.  After any
    sequence of effect applications on a fresh state, each category holds
    the first occurrences of all the lines added to it, in the order they
    were added, and so holds no line twice.  Pushing A, B, A and then C, B
    gives A, B, C. *)
Theorem C4_accumulators_keep_first_occurrences :
  (forall arr items,
     uniqPush arr items
     = arr ++ filter (fun y => y ∉ arr) (first_occurrences (default [] items))) /\
  (forall fired input derived,
     let o := outputs (state (apply_each fired
                {| input := input; derived := derived; state := initState |})) in
     (locked o = first_occurrences (added add_locked fired) /\
      viable o = first_occurrences (added add_viable fired) /\
      actions o = first_occurrences (added add_actions fired) /\
      stop o = first_occurrences (added add_stop fired) /\
      notes o = first_occurrences (added add_notes fired)) /\
     (NoDup (locked o) /\ NoDup (viable o) /\ NoDup (actions o) /\
      NoDup (stop o) /\ NoDup (notes o))) /\
  uniqPush (uniqPush [] (Some ["A"; "B"; "A"])) (Some ["C"; "B"]) = ["A"; "B"; "C"].
Proof.
  split; [|split; [|reflexivity]].
  - intros arr items. apply push_all.
  - intros fired input derived o.
    assert (forall l, fold_left push_new l [] = first_occurrences l) as Hfresh.
    { intros l. rewrite push_all. simpl. apply filter_not_in_nil. }
    destruct (apply_each_outputs fired
                {| input := input; derived := derived; state := initState |})
      as (Hl & Hv & Ha & Hs & Hn).
    simpl in Hl, Hv, Ha, Hs, Hn. rewrite Hfresh in Hl, Hv, Ha, Hs, Hn.
    subst o. rewrite Hl, Hv, Ha, Hs, Hn.
    repeat split; apply NoDup_first_occurrences.
Qed.

(** ** Success template *)

Lemma eqb_decide (a b : string) : String.eqb a b = bool_decide (a = b).
Proof.
  destruct (String.eqb a b) eqn:H.
  - apply String.eqb_eq in H. by rewrite bool_decide_eq_true_2.
  - apply String.eqb_neq in H. by rewrite bool_decide_eq_false_2.
Qed.

Lemma array_includes_lines (l : list string) (t : string) :
  JS.array_includes (VStr <$> l) (Some (VStr t)) = bool_decide (t ∈ l).
Proof.
  unfold JS.array_includes. induction l as [|x l IH]; [done|].
  cbn [fmap list_fmap existsb]. rewrite IH. cbn [JS.same_value_zero JS.strict_eq].
  rewrite eqb_decide. apply eq_true_iff_eq.
  rewrite orb_true_iff, !bool_decide_eq_true, elem_of_cons. intuition congruence.
Qed.

Lemma includes_held_lines (v : jsval) (l : list string) (t : string) :
  holds_lines v l -> JS.includes (JS.or_else v (VArr [])) t = Ok (bool_decide (t ∈ l)).
Proof.
  intros [-> | [Hnull ->]].
  - simpl. by rewrite array_includes_lines.
  - by destruct v as [[]|].
Qed.

Lemma some_items_decided {A : Type} (P : A -> Prop) `{!forall x, Decision (P x)} (l : list A) :
  JS.some_items (fun x => Ok (bool_decide (P x))) l = Ok (bool_decide (Exists P l)).
Proof.
  induction l as [|x l IH]; cbn [JS.some_items].
  - reflexivity.
  - destruct (decide (P x)) as [Hx|Hx].
    + rewrite (bool_decide_eq_true_2 (P x)) by done. simpl. f_equal. symmetry.
      apply bool_decide_eq_true_2. by left.
    + rewrite (bool_decide_eq_false_2 (P x)) by done. simpl. rewrite IH. f_equal.
      apply bool_decide_ext. rewrite Exists_cons. tauto.
Qed.

(** Claim C1.  On a context whose [systems_considered] and
    [campus_targets_uc] are string sequences (as the form reader builds them;
    a missing field counts as empty), the selector raises nothing and returns
    the key that the priority table gives, first matching branch winning. *)
Theorem C1_selector_follows_priority_table (ctx : Context) (systems campuses : list string) :
  holds_lines (JS.get (Some (input ctx)) "systems_considered") systems ->
  holds_lines (JS.get (Some (input ctx)) "campus_targets_uc") campuses ->
  chooseSuccessTemplate ctx
  = Ok (select_by_priority (gpa_band (derived ctx)) (time_window (derived ctx))
          systems campuses).
Proof.
  unfold chooseSuccessTemplate, select_by_priority.
  generalize (JS.get (Some (input ctx)) "systems_considered"),
             (JS.get (Some (input ctx)) "campus_targets_uc").
  intros sys camp Hsys Hcamp.
  rewrite !eqb_decide, !(includes_held_lines _ _ _ Hsys), (includes_held_lines _ _ _ Hcamp).
  rewrite (some_items_ext _ (fun c => Ok (bool_decide (c ∈ campuses))))
    by (intros; by apply includes_held_lines).
  rewrite some_items_decided.
  assert (bool_decide (gpa_band (derived ctx) = "C") || bool_decide (gpa_band (derived ctx) = "D")
          || bool_decide (gpa_band (derived ctx) = "E")
          = bool_decide (gpa_band (derived ctx) ∈ ["C"; "D"; "E"])) as ->.
  { apply eq_true_iff_eq. rewrite !orb_true_iff, !bool_decide_eq_true.
    rewrite !elem_of_cons, elem_of_nil. tauto. }
  destruct (bool_decide (time_window (derived ctx) = "closed")); [reflexivity|].
  destruct (bool_decide (gpa_band (derived ctx) ∈ ["C"; "D"; "E"])); [reflexivity|].
  destruct (bool_decide ("cc_transfer" ∈ systems)), (bool_decide ("uc" ∈ systems)),
    (bool_decide ("UCM" ∈ campuses)),
    (bool_decide (Exists (fun c => c ∈ campuses) ["UCR"; "UCSC"; "UCSD"; "UCLA"])),
    (bool_decide (time_window (derived ctx) = "early")); reflexivity.
Qed.

(** The end-to-end example of the specification: grade 11, GPA 3.9, the UC
    system, UCSD. *)
Lemma C1_selector_on_sample :
  chooseSuccessTemplate sample_context
  = Ok (select_by_priority (gpa_band (derived sample_context))
          (time_window (derived sample_context)) ["uc"] ["UCSD"]).
Proof.
  apply (C1_selector_follows_priority_table sample_context ["uc"] ["UCSD"]);
    left; reflexivity.
Defined.

Example selector_precedence :
  chooseSuccessTemplate sample_context = Ok "floor_guarded_uc" /\
  chooseSuccessTemplate (context_with "D" "closed" ["cc_transfer"; "uc"] []) = Ok "closed_window" /\
  chooseSuccessTemplate (context_with "D" "late" ["cc_transfer"; "uc"] []) = Ok "cc_to_uc" /\
  chooseSuccessTemplate (context_with "E" "late" ["uc"] ["UCM"]) = Ok "cc_transfer_refused" /\
  chooseSuccessTemplate (context_with "A" "late" ["uc"] ["UCM"; "UCLA"]) = Ok "access_uc" /\
  chooseSuccessTemplate (context_with "A" "early" ["uc"] ["UCB"]) = Ok "mid_uc_early" /\
  chooseSuccessTemplate (context_with "B" "final" ["uc"] []) = Ok "mid_uc_late" /\
  chooseSuccessTemplate (context_with "B" "final" ["csu"] ["UCM"]) = Ok "csu".
Proof. repeat split; vm_compute; reflexivity. Qed.

(** ** Output shaping *)

Lemma append_cons (a : ascii) (t s : string) :
  String.String a t +:+ s = String.String a (t +:+ s).
Proof. reflexivity. Qed.

Lemma append_nil (s : string) : "" +:+ s = s.
Proof. reflexivity. Qed.

Lemma prefix_spec (t s : string) :
  String.prefix t s = true <-> exists after, s = t +:+ after.
Proof.
  revert s. induction t as [|a t IH]; intros s; destruct s as [|b s]; simpl.
  - split; [by exists "" | done].
  - split; [by exists (String.String b s) | done].
  - split; [done | by intros [? [=]]].
  - destruct (Ascii.ascii_dec a b) as [<-|Hne].
    + rewrite IH. split; intros [after H]; exists after; rewrite append_cons in *; congruence.
    + split; [done | intros [after H]; rewrite append_cons in H; congruence].
Qed.

Lemma string_includes_spec (s t : string) :
  JS.string_includes s t = true <-> occurs_in t s.
Proof.
  unfold occurs_in. induction s as [|c rest IH]; cbn [JS.string_includes].
  - rewrite prefix_spec. split.
    + intros [after H]. by exists "", after.
    + intros ([|? ?] & after & H); [by exists after | discriminate].
  - rewrite orb_true_iff, prefix_spec, IH. split.
    + intros [[after H] | (before & after & ->)].
      * by exists "", after.
      * by exists (String.String c before), after.
    + intros ([|c' before] & after & H).
      * left. by exists after.
      * right. rewrite append_cons in H. injection H as <- ->. by exists before, after.
Qed.

Lemma key_in_suppressedKeys (m : gmap string bool) (k : string) :
  key_in (suppressedKeys m) k = true <-> m !! k = Some true.
Proof.
  unfold key_in, suppressedKeys. rewrite bool_decide_eq_true, list_elem_of_fmap.
  split.
  - intros ([k' b] & -> & Hin). apply list_elem_of_filter in Hin as [Hb Hin].
    simpl in *. subst b. by apply elem_of_map_to_list.
  - intros H. exists (k, true). split; [done|].
    apply list_elem_of_filter. split; [done|]. by apply elem_of_map_to_list.
Qed.

(** The cascade of [filterSuppressed] is a disjunction over the keyword
    table. *)
Lemma filterSuppressed_table (keys : list string) (line : string) :
  filterSuppressed keys line
  = negb (existsb (fun fk => key_in keys fk.1 && JS.string_includes (JS.toLowerCase line) fk.2)
            keyword_table).
Proof.
  unfold filterSuppressed, keyword_table. cbn [existsb fst snd].
  generalize (JS.toLowerCase line). intros s.
  generalize (key_in keys "testing"), (key_in keys "cc"), (key_in keys "ap"),
    (key_in keys "internships"), (key_in keys "extracurriculars"),
    (key_in keys "middle_college"),
    (JS.string_includes s "test"), (JS.string_includes s "cc"), (JS.string_includes s "ap"),
    (JS.string_includes s "honors"), (JS.string_includes s "intern"),
    (JS.string_includes s "ec"), (JS.string_includes s "club"),
    (JS.string_includes s "middle college").
  intros. btauto.
Qed.

Lemma filterSuppressed_spec (m : gmap string bool) (line : string) :
  filterSuppressed (suppressedKeys m) line = false <-> mentions_suppressed m line.
Proof.
  rewrite filterSuppressed_table, negb_false_iff, existsb_exists.
  unfold mentions_suppressed. split.
  - intros ([flag kw] & Hin & Hhit). apply andb_true_iff in Hhit as [Hkey Hkw].
    exists flag, kw. split; [by apply list_elem_of_In|].
    split; [by apply key_in_suppressedKeys | by apply string_includes_spec].
  - intros (flag & kw & Hin & Hflag & Hkw). exists (flag, kw).
    split; [by apply list_elem_of_In|]. apply andb_true_iff.
    split; [by apply key_in_suppressedKeys | by apply string_includes_spec].
Qed.

#[global] Instance mentions_suppressed_dec (m : gmap string bool) (line : string) :
  Decision (mentions_suppressed m line).
Proof.
  destruct (filterSuppressed (suppressedKeys m) line) eqn:H.
  - right. rewrite <- filterSuppressed_spec. congruence.
  - left. by apply filterSuppressed_spec.
Defined.

Lemma filter_filterSuppressed (m : gmap string bool) (lines : list string) :
  List.filter (filterSuppressed (suppressedKeys m)) lines
  = filter (fun line => ~ mentions_suppressed m line) lines.
Proof.
  induction lines as [|line lines IH]; [done|]. cbn [List.filter].
  destruct (filterSuppressed (suppressedKeys m) line) eqn:H.
  - rewrite filter_cons_True; [by rewrite IH|].
    rewrite <- filterSuppressed_spec. congruence.
  - rewrite filter_cons_False; [done|].
    intros Hno. apply Hno. by apply filterSuppressed_spec.
Qed.

Lemma enforce_limit (arr : list string) (entry : option Z) (d : Z) :
  count_entry entry -> (0 < d)%Z ->
  enforceConstraints arr (or_count entry d) = take (limit entry (Z.to_nat d)) arr.
Proof.
  intros Hentry Hd. unfold enforceConstraints, JS.slice0, or_count, limit.
  destruct entry as [n|].
  - specialize (Hentry n eq_refl).
    destruct (Z.eqb_spec n 0) as [->|Hn].
    + simpl. destruct (Z.ltb_spec d 0); [lia | done].
    + destruct (Z.ltb_spec 0 n); [|lia]. destruct (Z.ltb_spec n 0); [lia | done].
  - destruct (Z.ltb_spec d 0); [lia | done].
Qed.

Lemma Set_order_first_occurrences (arr : list string) : Set_order arr = first_occurrences arr.
Proof. unfold Set_order. rewrite push_all. apply filter_not_in_nil. Qed.

Lemma renderOutput_lists (RULESET : Ruleset) (ctx : Context) (page : Page) :
  renderOutput RULESET ctx = Ok page ->
  exists c, output_constraints RULESET = Some c /\
  let o := outputs (state ctx) in
  locked_list page = enforceConstraints (locked o) (or_count (max_locked c) 7) /\
  viable_list page = enforceConstraints (viable o) (or_count (max_viable c) 6) /\
  actions_list page
  = enforceConstraints (List.filter (filterSuppressed (suppressedKeys (suppress (state ctx))))
                          (actions o)) (or_count (max_actions c) 5) /\
  stop_list page = stop o /\
  notes_list page = enforceConstraints (Set_order (notes o)) 8.
Proof.
  unfold renderOutput. destruct (output_constraints RULESET) as [c|]; [|discriminate].
  simpl. destruct (chooseSuccessTemplate ctx) as [key|]; [|discriminate].
  intros [= <-]. by exists c.
Qed.

Lemma renderOutput_lists_of (RULESET : Ruleset) (ctx : Context) (page : Page)
    (c : Constraints) :
  output_constraints RULESET = Some c ->
  renderOutput RULESET ctx = Ok page ->
  let o := outputs (state ctx) in
  locked_list page = enforceConstraints (locked o) (or_count (max_locked c) 7) /\
  viable_list page = enforceConstraints (viable o) (or_count (max_viable c) 6) /\
  actions_list page
  = enforceConstraints (List.filter (filterSuppressed (suppressedKeys (suppress (state ctx))))
                          (actions o)) (or_count (max_actions c) 5) /\
  stop_list page = stop o /\
  notes_list page = enforceConstraints (Set_order (notes o)) 8.
Proof.
  intros Hc Hpage. destruct (renderOutput_lists _ _ _ Hpage) as (c' & Hc' & H).
  rewrite Hc in Hc'. by injection Hc' as <-.
Qed.

(** Claim C8, as the code has it.  A line is dropped exactly when it mentions
    something suppressed: its lower-cased text contains a keyword of a flag
    that is true.  The filter runs before the cut: the actions on the page
    are the lines that survive, in insertion order, cut to [max_actions] when
    that is a positive count and to 5 when the entry is missing or zero.
    Every line on the page is an accumulated line that mentions nothing
    suppressed. *)
Theorem C8_suppressed_lines_are_dropped_before_the_cut
    (RULESET : Ruleset) (ctx : Context) (page : Page) (c : Constraints) :
  output_constraints RULESET = Some c ->
  renderOutput RULESET ctx = Ok page ->
  count_entry (max_actions c) ->
  (forall line,
     filterSuppressed (suppressedKeys (suppress (state ctx))) line = false
     <-> mentions_suppressed (suppress (state ctx)) line) /\
  actions_list page
  = take (limit (max_actions c) 5)
      (filter (fun line => ~ mentions_suppressed (suppress (state ctx)) line)
         (actions (outputs (state ctx)))) /\
  (forall line,
     line ∈ actions_list page ->
     line ∈ actions (outputs (state ctx)) /\
     ~ mentions_suppressed (suppress (state ctx)) line).
Proof.
  intros Hc Hpage Hentry.
  destruct (renderOutput_lists_of _ _ _ _ Hc Hpage) as (_ & _ & Hactions & _ & _).
  rewrite enforce_limit, filter_filterSuppressed in Hactions by (done || lia).
  split; [|split].
  - intros line. apply filterSuppressed_spec.
  - exact Hactions.
  - intros line Hin. rewrite Hactions in Hin. apply subseteq_take in Hin.
    apply list_elem_of_filter in Hin. tauto.
Qed.

Lemma busy_page_rendered : renderOutput no_maximum busy_context = Ok busy_page.
Proof. vm_compute. reflexivity. Qed.

Lemma crowded_page_rendered : renderOutput positive_maxima crowded_context = Ok crowded_page.
Proof. vm_compute. reflexivity. Qed.

(** Eight actions, two of them mentioning AP, and a maximum of three: the
    first three of the six survivors are shown. *)
Lemma C8_filter_then_cut_on_crowded_context :
  (forall line,
     filterSuppressed (suppressedKeys (suppress (state crowded_context))) line = false
     <-> mentions_suppressed (suppress (state crowded_context)) line) /\
  actions_list crowded_page
  = take 3
      (filter (fun line => ~ mentions_suppressed (suppress (state crowded_context)) line)
         (actions (outputs (state crowded_context)))) /\
  (forall line,
     line ∈ actions_list crowded_page ->
     line ∈ actions (outputs (state crowded_context)) /\
     ~ mentions_suppressed (suppress (state crowded_context)) line).
Proof.
  apply (C8_suppressed_lines_are_dropped_before_the_cut positive_maxima crowded_context
           crowded_page
           {| max_locked := Some 2%Z; max_viable := Some 1%Z; max_actions := Some 3%Z;
              max_stop := None |} eq_refl crowded_page_rendered).
  intros n [= <-]. lia.
Defined.

(** Claim C8, as stated, fails: under a ruleset that sets [max_actions] to 0
    the page shows five actions, not the first 0 of the survivors. *)
Lemma C8_zero_maximum_shows_five_actions :
  (max_actions <$> output_constraints zero_max_actions) = Some (Some 0%Z) /\
  exists page,
    renderOutput zero_max_actions busy_context = Ok page /\
    actions_list page
    = ["Visit two campuses"; "Draft the essay"; "Meet the counselor"; "Plan the summer";
       "Review the transcript"] /\
    actions_list page
    <> take 0 (filter (fun line => ~ mentions_suppressed (suppress (state busy_context)) line)
                 (actions (outputs (state busy_context)))).
Proof.
  split; [reflexivity|]. eexists. split; [vm_compute; reflexivity|].
  split; [reflexivity | discriminate].
Qed.

(** The keyword test of the specification, with the flag on and off. *)
Example ap_line_with_and_without_flag :
  filterSuppressed ["ap"] "Consider AP coursework for rigor" = false /\
  filterSuppressed [] "Consider AP coursework for rigor" = true /\
  filterSuppressed ["ap"] "Apply early" = false /\
  filterSuppressed ["essays"] "Draft the essay" = true.
Proof. repeat split; vm_compute; reflexivity. Qed.

(** Claim C9, as the code has it.  Each list on its own: the page shows the
    first [max_locked] locked items, the first [max_viable] viable items and
    the first [max_actions] surviving actions when that maximum is a positive
    count, and the first 7, 6 and 5 when the entry is missing or zero; it
    shows the first 8 of the notes without repetitions.  All in insertion
    order.  In particular a [max_locked] of [N > 0] shows the first [N]
    locked items, whatever the other entries are. *)
Theorem C9_lists_are_cut_to_positive_maxima
    (RULESET : Ruleset) (ctx : Context) (page : Page) (c : Constraints) :
  output_constraints RULESET = Some c ->
  renderOutput RULESET ctx = Ok page ->
  (count_entry (max_locked c) ->
   locked_list page = take (limit (max_locked c) 7) (locked (outputs (state ctx)))) /\
  (count_entry (max_viable c) ->
   viable_list page = take (limit (max_viable c) 6) (viable (outputs (state ctx)))) /\
  (count_entry (max_actions c) ->
   actions_list page
   = take (limit (max_actions c) 5)
       (filter (fun line => ~ mentions_suppressed (suppress (state ctx)) line)
          (actions (outputs (state ctx))))) /\
  notes_list page = take 8 (first_occurrences (notes (outputs (state ctx)))) /\
  (forall N, max_locked c = Some N -> (0 < N)%Z ->
     locked_list page = take (Z.to_nat N) (locked (outputs (state ctx)))).
Proof.
  intros Hc Hpage.
  destruct (renderOutput_lists_of _ _ _ _ Hc Hpage) as (Hl & Hv & Ha & _ & Hn).
  rewrite filter_filterSuppressed in Ha. rewrite Set_order_first_occurrences in Hn.
  split; [|split; [|split; [|split]]].
  - intros Hentry. by rewrite enforce_limit in Hl by (done || lia).
  - intros Hentry. by rewrite enforce_limit in Hv by (done || lia).
  - intros Hentry. by rewrite enforce_limit in Ha by (done || lia).
  - exact Hn.
  - intros N HN Hpos. rewrite enforce_limit in Hl by (try lia; rewrite HN; intros ? [= <-]; lia).
    rewrite Hl, HN. unfold limit. by rewrite (proj2 (Z.ltb_lt 0 N) Hpos).
Qed.

(** The crowded context under the maxima 2, 1 and 3: two of three locked
    pathways, one of three viable ones, three of six surviving actions, and
    eight of the nine distinct notes. *)
Lemma C9_cut_on_crowded_context :
  locked_list crowded_page = take 2 (locked (outputs (state crowded_context))) /\
  viable_list crowded_page = take 1 (viable (outputs (state crowded_context))) /\
  actions_list crowded_page
  = take 3
      (filter (fun line => ~ mentions_suppressed (suppress (state crowded_context)) line)
         (actions (outputs (state crowded_context)))) /\
  notes_list crowded_page
  = take 8 (first_occurrences (notes (outputs (state crowded_context)))).
Proof.
  destruct (C9_lists_are_cut_to_positive_maxima positive_maxima crowded_context crowded_page
              {| max_locked := Some 2%Z; max_viable := Some 1%Z; max_actions := Some 3%Z;
                 max_stop := None |} eq_refl crowded_page_rendered)
    as (Hlocked & Hviable & Hactions & Hnotes & _).
  split; [|split; [|split]].
  - apply Hlocked. intros n [= <-]. lia.
  - apply Hviable. intros n [= <-]. lia.
  - apply Hactions. intros n [= <-]. lia.
  - exact Hnotes.
Defined.

(** Claim C9, as stated, fails: a ruleset that sets [max_locked] to 0 shows
    both locked items, not the first 0 of them. *)
Lemma C9_zero_maximum_shows_the_default :
  (max_locked <$> output_constraints zero_max_locked) = Some (Some 0%Z) /\
  exists page,
    renderOutput zero_max_locked busy_context = Ok page /\
    locked_list page = ["Pathway one"; "Pathway two"].
Proof. split; [reflexivity|]. eexists. split; vm_compute; reflexivity. Qed.

(** The page shows the whole stop list: [renderOutput] computes the cut list
    [stopC] and then hands the uncut [stop] to [renderList]. *)
Example stop_list_is_not_cut :
  exists page,
    renderOutput no_maximum busy_context = Ok page /\
    stop_list page = ["one"; "two"; "three"; "four"; "five"; "six"] /\
    enforceConstraints (stop (outputs (state busy_context))) (or_count None 5)
    = ["one"; "two"; "three"; "four"; "five"].
Proof. eexists. repeat split; vm_compute; reflexivity. Qed.

(** The end-to-end test of the specification: no stage to run, every list
    empty, and the key of the guarded-floor narrative. *)
Example end_to_end :
  exists ctx page,
    runEngine no_maximum sample_input = Ok ctx /\
    renderOutput no_maximum ctx = Ok page /\
    chooseSuccessTemplate ctx = Ok "floor_guarded_uc" /\
    (locked_list page, viable_list page, actions_list page, stop_list page, notes_list page)
    = ([], [], [], [], []) /\
    pill_gpa_band page = "GPA band: A" /\ pill_time_window page = "Time window: late".
Proof. do 2 eexists. repeat split; vm_compute; reflexivity. Qed.

(** * Conditions, effects, runs and the page

    How conditions read the context, how effects and runs compose (with the
    claim of the specification on the order of the rules), what the page
    shows, and what the form reader hands to the engine.  A statement marked
    Claim is a claim of the specification; one marked Property is what the
    code shows beyond them. *)

(** ** What a condition reads *)

Lemma split_dot_nonempty (s : string) : JS.split_dot s <> [].
Proof.
  destruct s as [|c rest]; simpl; [done|].
  destruct (Ascii.eqb c "."); [done|]. by destruct (JS.split_dot rest).
Qed.

Lemma split_dot_append (a b : string) :
  JS.split_dot (a +:+ "." +:+ b) = JS.split_dot a ++ JS.split_dot b.
Proof.
  induction a as [|c a IH]; [reflexivity|].
  rewrite append_cons. cbn [JS.split_dot]. rewrite IH.
  destruct (Ascii.eqb c "."); [reflexivity|].
  pose proof (split_dot_nonempty a). by destruct (JS.split_dot a).
Qed.

Lemma split_dot_dotless (k : string) : dotless k = true -> JS.split_dot k = [k].
Proof.
  induction k as [|c k IH]; simpl; [done|].
  destruct (Ascii.eqb c "."); simpl; [done|]. by intros ->%IH.
Qed.

Lemma getField_under (ctx : Context) (path k : string) :
  dotless k = true ->
  getField ctx (Some (VStr (path +:+ "." +:+ k)))
  = (if JS.is_nullish (getField ctx (Some (VStr path))) then undefined
     else JS.get (getField ctx (Some (VStr path))) k).
Proof.
  intros Hk. unfold getField. cbn [JS.ToString JS.to_string].
  rewrite split_dot_append, getField_loop_app, (split_dot_dotless k Hk). reflexivity.
Qed.

Lemma own_unique (k : string) (v : value) (props : list (string * value)) :
  NoDup props.*1 -> (k, v) ∈ props -> JS.own k props = Some v.
Proof.
  induction props as [|[k' v'] rest IH]; intros Hnd Hin; [by apply elem_of_nil in Hin|].
  apply NoDup_cons in Hnd as [Hfresh Hnd]. cbn [JS.own].
  apply elem_of_cons in Hin as [[= <- <-] | Hin].
  - by rewrite String.eqb_refl.
  - destruct (String.eqb_spec k' k) as [->|_]; [|by apply IH].
    exfalso. apply Hfresh. apply list_elem_of_fmap. by exists (k, v).
Qed.

Lemma own_absent (k : string) (props : list (string * value)) :
  k ∉ props.*1 -> JS.own k props = undefined.
Proof.
  induction props as [|[k' v'] rest IH]; intros Hk; [done|]. cbn [JS.own].
  destruct (String.eqb_spec k' k) as [->|_].
  - exfalso. apply Hk. left.
  - apply IH. intros ?. apply Hk. by right.
Qed.

(** The suppression record, read as an object, is the map. *)
Lemma get_suppress_value (m : gmap string bool) (k : string) :
  JS.get (Some (suppress_value m)) k = VBool <$> m !! k.
Proof.
  unfold suppress_value. cbn [JS.get].
  assert ((prod_map id VBool <$> map_to_list m).*1 = (map_to_list m).*1) as Hkeys.
  { rewrite <- list_fmap_compose. by apply list_fmap_ext; intros ? []. }
  destruct (m !! k) as [b|] eqn:Hm; simpl.
  - apply own_unique; [rewrite Hkeys; apply NoDup_fst_map_to_list|].
    apply list_elem_of_fmap. exists (k, b). split; [done|]. by apply elem_of_map_to_list.
  - apply own_absent. rewrite Hkeys. intros Hin.
    apply list_elem_of_fmap in Hin as ([k' b] & -> & Hin).
    apply elem_of_map_to_list in Hin. simpl in *. congruence.
Qed.

Lemma getField_suppress (ctx : Context) (k : string) :
  dotless k = true ->
  getField ctx (Some (VStr ("state.suppress." +:+ k))) = VBool <$> suppress (state ctx) !! k.
Proof.
  intros Hk.
  change ("state.suppress." +:+ k) with ("state.suppress" +:+ "." +:+ k).
  rewrite (getField_under ctx "state.suppress" k Hk).
  change (getField ctx (Some (VStr "state.suppress")))
    with (Some (suppress_value (suppress (state ctx)))).
  cbn [JS.is_nullish]. unfold suppress_value at 1. apply get_suppress_value.
Qed.

Lemma leaf_is_leaf (ctx : Context) (path operator : string) (operand : value) :
  operator <> "all" -> operator <> "any" ->
  evalCond ctx (leaf path operator operand) = Ok (leaf_result ctx (leaf path operator operand)).
Proof.
  intros Hall Hany. apply evalCond_leaf; [exact I | |]; unfold leaf; cbn [JS.get JS.own].
  - destruct (String.eqb_spec operator "all"); [done | reflexivity].
  - destruct (String.eqb_spec operator "any"); [done | reflexivity].
Qed.

Lemma evalCond_flag (ctx : Context) (k : string) :
  dotless k = true ->
  evalCond ctx (leaf ("state.suppress." +:+ k) "eq" (VBool true))
  = Ok (bool_decide (suppress (state ctx) !! k = Some true)).
Proof.
  intros Hk. rewrite leaf_is_leaf by done. f_equal. unfold leaf_result, leaf.
  cbn [JS.get JS.own String.eqb Ascii.eqb Bool.eqb]. rewrite (getField_suppress ctx k Hk).
  rewrite bool_decide_eq_false_2 by (intros [? [=]]).
  rewrite bool_decide_eq_true_2 by eauto.
  destruct (suppress (state ctx) !! k) as [[]|]; reflexivity.
Qed.

(** Property X1. A rule can test a suppression flag: for a key [K] that a
    path can name and an assignment stores (no dot in it, and not
    ["__proto__"]), the condition [{field: "state.suppress.K", eq: true}]
    holds exactly when flag [K] is true in the state it is evaluated on; so
    it holds right after a patch that maps [K] to [true], whatever the flag
    was before. *)
Theorem condition_reads_suppression_flag
    (ctx : Context) (k : string) (entries : list (string * value)) :
  dotless k = true ->
  k <> "__proto__" ->
  (k, VBool true) ∈ entries ->
  evalCond ctx (leaf ("state.suppress." +:+ k) "eq" (VBool true))
  = Ok (bool_decide (suppress (state ctx) !! k = Some true)) /\
  evalCond {| input := input ctx; derived := derived ctx;
              state := applySuppress (state ctx) (Some entries) |}
    (leaf ("state.suppress." +:+ k) "eq" (VBool true))
  = Ok true.
Proof.
  intros Hk Hproto Hin. split; [by apply evalCond_flag|].
  rewrite evalCond_flag by done. f_equal. apply bool_decide_eq_true_2.
  cbn [state applySuppress suppress]. by apply suppress_entries_set.
Qed.

(** On the sample context the flag [ap] is false; after the patch
    [{cc: false, ap: true}] the condition holds. *)
Lemma condition_reads_ap_flag :
  evalCond sample_context (leaf ("state.suppress." +:+ "ap") "eq" (VBool true))
  = Ok (bool_decide (suppress (state sample_context) !! "ap" = Some true)) /\
  evalCond {| input := input sample_context; derived := derived sample_context;
              state := applySuppress (state sample_context)
                         (Some [("cc", VBool false); ("ap", VBool true)]) |}
    (leaf ("state.suppress." +:+ "ap") "eq" (VBool true))
  = Ok true.
Proof.
  apply (condition_reads_suppression_flag sample_context "ap"
           [("cc", VBool false); ("ap", VBool true)]).
  - reflexivity.
  - discriminate.
  - right. left.
Defined.

Lemma contains_lines (ctx : Context) (path : string) (lines : list string) (x : string) :
  getField ctx (Some (VStr path)) = Some (lines_value lines) ->
  evalCond ctx (leaf path "contains" (VStr x)) = Ok (bool_decide (x ∈ lines)).
Proof.
  intros Hval. rewrite leaf_is_leaf by done. f_equal. unfold leaf_result, leaf.
  cbn [JS.get JS.own String.eqb Ascii.eqb Bool.eqb]. rewrite Hval.
  repeat (rewrite bool_decide_eq_false_2 by (intros [? [=]])).
  rewrite bool_decide_eq_true_2 by eauto. apply array_includes_lines.
Qed.

Lemma exists_lines (ctx : Context) (path : string) (lines : list string) :
  getField ctx (Some (VStr path)) = Some (lines_value lines) ->
  evalCond ctx (leaf path "exists" (VBool true)) = Ok (bool_decide (lines <> [])).
Proof.
  intros Hval. rewrite leaf_is_leaf by done. f_equal. unfold leaf_result, leaf.
  cbn [JS.get JS.own String.eqb Ascii.eqb Bool.eqb]. rewrite Hval.
  rewrite bool_decide_eq_true_2 by eauto. by destruct lines.
Qed.

(** Property X2. A rule can test what has been collected so far: on each of
    the five categories, [contains] holds exactly for the lines in the
    accumulator, and [exists] holds exactly when the accumulator is not empty
    (an empty list counts as absent). *)
Theorem condition_reads_accumulators (ctx : Context) (x : string) :
  let o := outputs (state ctx) in
  (evalCond ctx (leaf "state.outputs.locked" "contains" (VStr x)) = Ok (bool_decide (x ∈ locked o)) /\
   evalCond ctx (leaf "state.outputs.viable" "contains" (VStr x)) = Ok (bool_decide (x ∈ viable o)) /\
   evalCond ctx (leaf "state.outputs.actions" "contains" (VStr x)) = Ok (bool_decide (x ∈ actions o)) /\
   evalCond ctx (leaf "state.outputs.stop" "contains" (VStr x)) = Ok (bool_decide (x ∈ stop o)) /\
   evalCond ctx (leaf "state.outputs.notes" "contains" (VStr x)) = Ok (bool_decide (x ∈ notes o))) /\
  (evalCond ctx (leaf "state.outputs.locked" "exists" (VBool true)) = Ok (bool_decide (locked o <> [])) /\
   evalCond ctx (leaf "state.outputs.viable" "exists" (VBool true)) = Ok (bool_decide (viable o <> [])) /\
   evalCond ctx (leaf "state.outputs.actions" "exists" (VBool true)) = Ok (bool_decide (actions o <> [])) /\
   evalCond ctx (leaf "state.outputs.stop" "exists" (VBool true)) = Ok (bool_decide (stop o <> [])) /\
   evalCond ctx (leaf "state.outputs.notes" "exists" (VBool true)) = Ok (bool_decide (notes o <> []))).
Proof.
  intros o. split; repeat split; (apply contains_lines || apply exists_lines); reflexivity.
Qed.

Lemma getField_input (ctx : Context) (k : string) :
  dotless k = true ->
  getField ctx (Some (VStr ("input." +:+ k))) = JS.get (Some (input ctx)) k.
Proof.
  intros Hk. change ("input." +:+ k) with ("input" +:+ "." +:+ k).
  rewrite (getField_under ctx "input" k Hk).
  change (getField ctx (Some (VStr "input"))) with (Some (input ctx)).
  by destruct (input ctx).
Qed.

(** Property X3. A rule can test the facts of the student: a condition on a
    field of the input compares the value the reader stored there. For a field
    that holds the number [g], [gte: t] holds exactly when [t <= g], and [eq:
    t] exactly when [g] equals [t]; for a field that holds anything but a
    number, [gte] fails. *)
Theorem condition_reads_input_number (ctx : Context) (k : string) (t : Q) :
  dotless k = true ->
  (forall g, JS.get (Some (input ctx)) k = Some (VNum (Fin g)) ->
     evalCond ctx (leaf ("input." +:+ k) "gte" (VNum (Fin t))) = Ok (Qle_bool t g) /\
     evalCond ctx (leaf ("input." +:+ k) "eq" (VNum (Fin t))) = Ok (Qeq_bool g t)) /\
  (JS.is_number (JS.get (Some (input ctx)) k) = false ->
     evalCond ctx (leaf ("input." +:+ k) "gte" (VNum (Fin t))) = Ok false).
Proof.
  intros Hk. split; [intros g Hg; split | intros Hnot];
    rewrite leaf_is_leaf by done; f_equal; unfold leaf_result, leaf;
    cbn [JS.get JS.own String.eqb Ascii.eqb Bool.eqb];
    rewrite (getField_input ctx k Hk);
    repeat (rewrite bool_decide_eq_false_2 by (intros [? [=]]));
    rewrite bool_decide_eq_true_2 by eauto.
  - by rewrite Hg.
  - by rewrite Hg.
  - by rewrite Hnot.
Qed.

Lemma condition_reads_sample_gpa :
  (forall g, JS.get (Some (input sample_context)) "gpa_unweighted" = Some (VNum (Fin g)) ->
     evalCond sample_context (leaf ("input." +:+ "gpa_unweighted") "gte" (VNum (Fin 3.5)))
     = Ok (Qle_bool 3.5 g) /\
     evalCond sample_context (leaf ("input." +:+ "gpa_unweighted") "eq" (VNum (Fin 3.5)))
     = Ok (Qeq_bool g 3.5)) /\
  (JS.is_number (JS.get (Some (input sample_context)) "gpa_unweighted") = false ->
     evalCond sample_context (leaf ("input." +:+ "gpa_unweighted") "gte" (VNum (Fin 3.5)))
     = Ok false).
Proof.
  apply (condition_reads_input_number sample_context "gpa_unweighted" 3.5). reflexivity.
Defined.

(** Property X4. A rule can test the two derived facts: on the band and on the
    time window, [eq] holds exactly for the value of the fact and [in] exactly
    for the lists that contain it. *)
Theorem condition_reads_derived_facts (ctx : Context) (x : string) (xs : list string) :
  evalCond ctx (leaf "derived.gpa_band" "eq" (VStr x))
  = Ok (bool_decide (gpa_band (derived ctx) = x)) /\
  evalCond ctx (leaf "derived.time_window" "eq" (VStr x))
  = Ok (bool_decide (time_window (derived ctx) = x)) /\
  evalCond ctx (leaf "derived.gpa_band" "in" (lines_value xs))
  = Ok (bool_decide (gpa_band (derived ctx) ∈ xs)) /\
  evalCond ctx (leaf "derived.time_window" "in" (lines_value xs))
  = Ok (bool_decide (time_window (derived ctx) ∈ xs)).
Proof.
  repeat split; rewrite leaf_is_leaf by done; f_equal; unfold leaf_result, leaf;
    cbn [JS.get JS.own String.eqb Ascii.eqb Bool.eqb];
    repeat (rewrite bool_decide_eq_false_2 by (intros [? [=]]));
    rewrite bool_decide_eq_true_2 by eauto.
  - change (getField ctx (Some (VStr "derived.gpa_band")))
      with (Some (VStr (gpa_band (derived ctx)))).
    cbn [JS.strict_eq]. apply eqb_decide.
  - change (getField ctx (Some (VStr "derived.time_window")))
      with (Some (VStr (time_window (derived ctx)))).
    cbn [JS.strict_eq]. apply eqb_decide.
  - change (getField ctx (Some (VStr "derived.gpa_band")))
      with (Some (VStr (gpa_band (derived ctx)))).
    apply array_includes_lines.
  - change (getField ctx (Some (VStr "derived.time_window")))
      with (Some (VStr (time_window (derived ctx)))).
    apply array_includes_lines.
Qed.

(** Property X5. Paths compose: resolving [a.b] is resolving [b] from the
    value [a] leads to, and it is [undefined] as soon as [a] leads to
    [undefined] or [null]. *)
Theorem getField_composes (ctx : Context) (a b : string) :
  getField ctx (Some (VStr (a +:+ "." +:+ b)))
  = getField_loop (getField ctx (Some (VStr a))) (JS.split_dot b) /\
  (JS.is_nullish (getField ctx (Some (VStr a))) = true ->
   getField ctx (Some (VStr (a +:+ "." +:+ b))) = undefined).
Proof.
  assert (getField ctx (Some (VStr (a +:+ "." +:+ b)))
          = getField_loop (getField ctx (Some (VStr a))) (JS.split_dot b)) as H.
  { unfold getField. cbn [JS.ToString JS.to_string].
    by rewrite split_dot_append, getField_loop_app. }
  split; [exact H|]. intros Hnull. rewrite H.
  pose proof (split_dot_nonempty b).
  destruct (getField ctx (Some (VStr a))) as [[]|]; try discriminate.
  - by apply getField_loop_null.
  - apply getField_loop_undefined.
Qed.

(** ** Combinators *)

Lemma every_items_all (f : value -> result bool) (items : list value) (bs : list bool) :
  Forall2 (fun e b => f e = Ok b) items bs ->
  JS.every_items f items = Ok (forallb id bs).
Proof.
  induction 1 as [|e b items bs He _ IH]; [reflexivity|].
  cbn [JS.every_items forallb]. rewrite He. simpl. destruct b; [exact IH | reflexivity].
Qed.

Lemma some_items_any (f : value -> result bool) (items : list value) (bs : list bool) :
  Forall2 (fun e b => f e = Ok b) items bs ->
  JS.some_items f items = Ok (existsb id bs).
Proof.
  induction 1 as [|e b items bs He _ IH]; [reflexivity|].
  cbn [JS.some_items existsb]. rewrite He. simpl. destruct b; [reflexivity | exact IH].
Qed.

Lemma evalCond_combinator_all (ctx : Context) (items : list value) :
  evalCond ctx (combinator "all" items)
  = JS.every_items (fun e => evalCond ctx (Some e)) items.
Proof. by rewrite evalCond_all. Qed.

Lemma evalCond_combinator_any (ctx : Context) (items : list value) :
  evalCond ctx (combinator "any" items)
  = JS.some_items (fun e => evalCond ctx (Some e)) items.
Proof. by rewrite evalCond_any. Qed.

(** Property X6. When every item of a combinator evaluates to a boolean, [all]
    is their conjunction and [any] their disjunction; so the empty [all] is
    true and the empty [any] is false. *)
Theorem all_is_conjunction_any_is_disjunction
    (ctx : Context) (items : list value) (bs : list bool) :
  Forall2 (fun e b => evalCond ctx (Some e) = Ok b) items bs ->
  evalCond ctx (combinator "all" items) = Ok (forallb id bs) /\
  evalCond ctx (combinator "any" items) = Ok (existsb id bs).
Proof.
  intros H. rewrite evalCond_combinator_all, evalCond_combinator_any.
  split; [by apply every_items_all | by apply some_items_any].
Qed.

Lemma all_any_on_sample :
  evalCond sample_context
    (combinator "all" [VObj [("field", VStr "derived.gpa_band"); ("eq", VStr "A")];
                       VObj [("field", VStr "input.grade_level"); ("gte", JS.of_Z 12)]])
  = Ok (forallb id [true; false]) /\
  evalCond sample_context
    (combinator "any" [VObj [("field", VStr "derived.gpa_band"); ("eq", VStr "A")];
                       VObj [("field", VStr "input.grade_level"); ("gte", JS.of_Z 12)]])
  = Ok (existsb id [true; false]).
Proof.
  apply (all_is_conjunction_any_is_disjunction sample_context _ [true; false]).
  repeat constructor; vm_compute; reflexivity.
Defined.

(** Property X7. Combinators stop at the first item that decides: an [all]
    whose items are true up to a false one is false, and an [any] whose items
    are false up to a true one is true, whatever comes after, be it a
    condition that would raise. An item that raises before that makes the
    combinator raise. *)
Theorem combinators_stop_at_the_deciding_item
    (ctx : Context) (before after : list value) (item : value) :
  (Forall (fun e => evalCond ctx (Some e) = Ok true) before ->
   (evalCond ctx (Some item) = Ok false ->
    evalCond ctx (combinator "all" (before ++ item :: after)) = Ok false) /\
   (evalCond ctx (Some item) = TypeError ->
    evalCond ctx (combinator "all" (before ++ item :: after)) = TypeError)) /\
  (Forall (fun e => evalCond ctx (Some e) = Ok false) before ->
   (evalCond ctx (Some item) = Ok true ->
    evalCond ctx (combinator "any" (before ++ item :: after)) = Ok true) /\
   (evalCond ctx (Some item) = TypeError ->
    evalCond ctx (combinator "any" (before ++ item :: after)) = TypeError)).
Proof.
  rewrite evalCond_combinator_all, evalCond_combinator_any.
  split; intros Hbefore; split; intros Hitem;
    induction Hbefore as [|e before He _ IH]; cbn [app JS.every_items JS.some_items];
    rewrite ?He, ?Hitem; try reflexivity; exact IH.
Qed.

(** A malformed item behind the deciding one is never looked at. *)
Lemma malformed_item_behind_a_deciding_one :
  evalCond sample_context
    (combinator "all"
       ([VObj [("field", VStr "derived.gpa_band"); ("eq", VStr "A")]]
        ++ VObj [("field", VStr "derived.gpa_band"); ("eq", VStr "B")] :: [VStr "always"]))
  = Ok false.
Proof.
  apply (combinators_stop_at_the_deciding_item sample_context
           [VObj [("field", VStr "derived.gpa_band"); ("eq", VStr "A")]] [VStr "always"]
           (VObj [("field", VStr "derived.gpa_band"); ("eq", VStr "B")])).
  - repeat constructor.
  - vm_compute. reflexivity.
Defined.

(** ** Effects *)

Lemma push_known (items arr : list string) :
  Forall (fun x => x ∈ arr) items -> fold_left push_new items arr = arr.
Proof.
  induction 1 as [|x items Hx _ IH]; [reflexivity|]. cbn [fold_left].
  unfold push_new at 2. by rewrite bool_decide_eq_true_2.
Qed.

Lemma push_new_keeps (arr : list string) (x y : string) : x ∈ arr -> x ∈ push_new arr y.
Proof. unfold push_new. case_bool_decide; [done|]. intros ?. apply elem_of_app. by left. Qed.

Lemma push_all_keeps (items arr : list string) (x : string) :
  x ∈ arr -> x ∈ fold_left push_new items arr.
Proof.
  revert arr. induction items as [|y items IH]; intros arr Hx; [done|].
  cbn [fold_left]. apply IH. by apply push_new_keeps.
Qed.

Lemma push_all_has (items arr : list string) :
  Forall (fun x => x ∈ fold_left push_new items arr) items.
Proof.
  revert arr. induction items as [|y items IH]; intros arr; [constructor|].
  cbn [fold_left]. constructor; [|apply IH].
  apply push_all_keeps. unfold push_new. case_bool_decide; [done|].
  apply elem_of_app. right. left.
Qed.

Lemma lookup_suppress_entries (entries : list (string * value)) (m : gmap string bool)
    (k : string) :
  fold_left suppress_entry entries m !! k
  = if sets_flag k entries then Some true else m !! k.
Proof.
  revert m. induction entries as [|[k' v] rest IH]; intros m; [reflexivity|].
  cbn [fold_left sets_flag existsb fst snd]. rewrite IH. fold (sets_flag k rest).
  destruct (sets_flag k rest); [by rewrite orb_true_r|]. rewrite orb_false_r.
  unfold suppress_entry. cbn [fst snd].
  destruct (JS.strict_eq (Some v) (Some (VBool true)));
    [|by rewrite andb_false_r, andb_false_l].
  rewrite andb_true_r.
  destruct (String.eqb k' "__proto__"); [by rewrite andb_false_r|].
  rewrite andb_true_r, lookup_insert.
  destruct (String.eqb_spec k' k); by case_decide.
Qed.

Lemma applyThen_input (ctx : Context) (rule : Rule) : input (applyThen ctx rule) = input ctx.
Proof. reflexivity. Qed.

Lemma applyThen_derived (ctx : Context) (rule : Rule) :
  derived (applyThen ctx rule) = derived ctx.
Proof. reflexivity. Qed.

Lemma applyThen_outputs (ctx : Context) (rule : Rule) :
  let t := default no_effect (then_ rule) in
  let o := outputs (state ctx) in
  outputs (state (applyThen ctx rule))
  = {| locked := uniqPush (locked o) (add_locked t);
       viable := uniqPush (viable o) (add_viable t);
       actions := uniqPush (actions o) (add_actions t);
       stop := uniqPush (stop o) (add_stop t);
       notes := uniqPush (notes o) (add_notes t) |}.
Proof. unfold applyThen. cbn [state]. by rewrite applySuppress_outputs. Qed.

Lemma applyThen_suppress (ctx : Context) (rule : Rule) :
  suppress (state (applyThen ctx rule))
  = suppress (applySuppress (state ctx) (set_suppress (default no_effect (then_ rule)))).
Proof.
  unfold applyThen. cbn [state].
  by destruct (set_suppress (default no_effect (then_ rule))).
Qed.

Lemma uniqPush_known (arr : list string) (items : option (list string)) :
  Forall (fun x => x ∈ arr) (default [] items) -> uniqPush arr items = arr.
Proof. apply push_known. Qed.

Lemma uniqPush_keeps (arr : list string) (items : option (list string)) (x : string) :
  x ∈ arr -> x ∈ uniqPush arr items.
Proof. apply push_all_keeps. Qed.

Lemma applyThen_absorbed (ctx : Context) (rule : Rule) :
  absorbed rule ctx -> applyThen ctx rule = ctx.
Proof.
  intros [Hlines Hflags]. unfold categories in Hlines.
  repeat (apply Forall2_cons in Hlines as [? Hlines]).
  unfold applyThen. cbv zeta. rewrite !uniqPush_known by done.
  destruct ctx as [i d [o m]]. cbn [input derived state outputs suppress] in *.
  f_equal. destruct (set_suppress _) as [entries|]; cbn [applySuppress default] in *.
  - destruct o. cbn [outputs suppress]. f_equal.
    apply map_eq. intros k. rewrite lookup_suppress_entries.
    destruct (sets_flag k entries) eqn:Hk; [|done]. symmetry. by apply Hflags.
  - by destruct o.
Qed.

Lemma absorbed_after (ctx : Context) (rule : Rule) : absorbed rule (applyThen ctx rule).
Proof.
  split.
  - unfold categories. rewrite applyThen_outputs. cbn [locked viable actions stop notes].
    repeat constructor; apply push_all_has.
  - intros k Hk. rewrite applyThen_suppress.
    destruct (set_suppress _) as [entries|]; simpl in Hk; [|discriminate].
    cbn [applySuppress suppress]. by rewrite lookup_suppress_entries, Hk.
Qed.

Lemma absorbed_kept (ctx : Context) (rule other : Rule) :
  absorbed rule ctx -> absorbed rule (applyThen ctx other).
Proof.
  intros [Hlines Hflags]. split.
  - unfold categories in *. rewrite applyThen_outputs. cbn [locked viable actions stop notes].
    repeat (apply Forall2_cons in Hlines as [? Hlines]).
    repeat constructor; (eapply Forall_impl; [eassumption|]); intros x; apply uniqPush_keeps.
  - intros k Hk. by apply applyThen_keeps, Hflags.
Qed.

Lemma absorbed_apply_each (ctx : Context) (rule : Rule) (fired : list Rule) :
  absorbed rule ctx -> absorbed rule (apply_each fired ctx).
Proof.
  unfold apply_each. revert ctx. induction fired as [|r fired IH]; intros ctx H; [done|].
  apply IH. by apply absorbed_kept.
Qed.

(** Property X8. Firing a rule again changes nothing, right away or at any
    later point: once the effect of a rule has been applied, applying it again
    after any further effects leaves the context as it is. A rule written
    twice, or a stage listed twice, adds no line twice and resets no flag. *)
Theorem refiring_a_rule_changes_nothing (ctx : Context) (rule : Rule) (fired : list Rule) :
  applyThen (apply_each fired (applyThen ctx rule)) rule
  = apply_each fired (applyThen ctx rule).
Proof. apply applyThen_absorbed, absorbed_apply_each, absorbed_after. Qed.

(** Property X9. Suppression patches commute: the flags after two patches do
    not depend on the order in which the patches were applied. *)
Theorem applySuppress_commutes (st : State) (p q : option (list (string * value))) :
  applySuppress (applySuppress st p) q = applySuppress (applySuppress st q) p.
Proof.
  destruct p as [ps|], q as [qs|]; try reflexivity.
  cbn [applySuppress outputs suppress]. f_equal.
  apply map_eq. intros k. rewrite !lookup_suppress_entries.
  by destruct (sets_flag k ps), (sets_flag k qs).
Qed.

(** ** The rule engine *)

Lemma try_next_fire (ctx : Context) (rule : Rule) : try_next (Ok ctx) rule = fire rule ctx.
Proof.
  unfold try_next, fire. simpl. by destruct (evalCond ctx (when rule)) as [[]|].
Qed.

Lemma try_after_raise (rs : list Rule) : foldl try_next TypeError rs = TypeError.
Proof. by induction rs. Qed.

Lemma for_rules_in_order (rs : list Rule) (ctx : Context) :
  for_rules rs ctx = try_in_order rs ctx.
Proof.
  unfold try_in_order. revert ctx. induction rs as [|r rs IH]; intros ctx; [done|].
  change (foldl try_next (Ok ctx) (r :: rs)) with (foldl try_next (try_next (Ok ctx) r) rs).
  rewrite try_next_fire. simpl. destruct (fire r ctx) as [ctx1|]; simpl.
  - apply IH.
  - by rewrite try_after_raise.
Qed.

Lemma for_rules_app (rs1 rs2 : list Rule) (ctx : Context) :
  for_rules (rs1 ++ rs2) ctx = for_rules rs1 ctx ≫= for_rules rs2.
Proof.
  revert ctx. induction rs1 as [|r rs1 IH]; intros ctx; simpl; [done|].
  destruct (fire r ctx) as [ctx1|]; simpl; [apply IH | done].
Qed.

Lemma for_stages_flat (RULESET : Ruleset) (stages : list string) (ctx : Context) :
  for_stages RULESET stages ctx
  = for_rules (s ← stages; filter (fun r => stage r = s) (rules RULESET)) ctx.
Proof.
  revert ctx. induction stages as [|s stages IH]; intros ctx; [done|].
  change (for_stages RULESET (s :: stages) ctx)
    with (for_rules (filter (fun r => stage r = s) (rules RULESET)) ctx
            ≫= for_stages RULESET stages).
  change ((s :: stages) ≫= (fun s => filter (fun r => stage r = s) (rules RULESET)))
    with (filter (fun r => stage r = s) (rules RULESET)
            ++ (stages ≫= (fun s => filter (fun r => stage r = s) (rules RULESET)))).
  rewrite for_rules_app.
  destruct (for_rules (filter _ (rules RULESET)) ctx) as [ctx1|]; simpl; [apply IH | done].
Qed.

Lemma try_in_order_app (rs1 rs2 : list Rule) (ctx : Context) :
  try_in_order (rs1 ++ rs2) ctx = try_in_order rs1 ctx ≫= try_in_order rs2.
Proof.
  rewrite <- !for_rules_in_order, for_rules_app.
  destruct (for_rules rs1 ctx); simpl; [apply for_rules_in_order | done].
Qed.

Lemma runEngine_start (RULESET : Ruleset) (input : value) :
  input <> VNull ->
  runEngine RULESET input
  = for_stages RULESET (default [] (execution_order RULESET)) (start input).
Proof. intros Hinput. unfold runEngine. by destruct input. Qed.

Lemma runEngine_returned (RULESET : Ruleset) (input : value) (ctx : Context) :
  runEngine RULESET input = Ok ctx ->
  for_stages RULESET (default [] (execution_order RULESET)) (start input) = Ok ctx.
Proof. unfold runEngine. by destruct input. Qed.

Lemma fire_absorbed (rule other : Rule) (ctx ctx' : Context) :
  fire other ctx = Ok ctx' -> absorbed rule ctx -> absorbed rule ctx'.
Proof.
  unfold fire. destruct (evalCond ctx (when other)) as [[]|]; simpl; intros [= <-]; [|done].
  apply absorbed_kept.
Qed.

Lemma for_rules_absorbed (rule : Rule) (rs : list Rule) (ctx ctx' : Context) :
  for_rules rs ctx = Ok ctx' -> absorbed rule ctx -> absorbed rule ctx'.
Proof.
  revert ctx. induction rs as [|r rs IH]; intros ctx; simpl; [by intros [= <-]|].
  destruct (fire r ctx) as [ctx1|] eqn:Hfire; simpl; [|discriminate].
  intros Hrest Habs. apply (IH ctx1 Hrest). by eapply fire_absorbed.
Qed.

(** A rule that stands in a sequence and whose condition holds when its turn
    comes has been absorbed by the context the sequence ends in. *)
Lemma fired_rule_absorbed (earlier later : list Rule) (rule : Rule) (ctx ctx1 ctx' : Context) :
  for_rules earlier ctx = Ok ctx1 ->
  evalCond ctx1 (when rule) = Ok true ->
  for_rules (earlier ++ rule :: later) ctx = Ok ctx' ->
  absorbed rule ctx'.
Proof.
  intros Hearlier Hcond. rewrite for_rules_app, Hearlier. simpl.
  unfold fire. rewrite Hcond. simpl. intros Hlater.
  apply (for_rules_absorbed _ _ _ _ Hlater), absorbed_after.
Qed.

Lemma flag_set_by_effect (ctx : Context) (rule : Rule) (k : string) :
  k <> "__proto__" ->
  (k, VBool true) ∈ default [] (set_suppress (default no_effect (then_ rule))) ->
  suppress (state (applyThen ctx rule)) !! k = Some true.
Proof.
  intros Hk Hin. rewrite applyThen_suppress.
  destruct (set_suppress _) as [entries|]; simpl in Hin; [|by apply elem_of_nil in Hin].
  cbn [applySuppress suppress]. by apply suppress_entries_set.
Qed.

(** Claim C2.  A run on an input the engine is written for tries the rules
    of the schedule one after the other, from the fresh context (and raises
    on a [null] input): stage by stage in the order of [execution_order],
    within a stage the rules tagged with it in the order of [rules], and no
    others.  Wherever a rule stands in a sequence, its condition is evaluated
    on the context that the rules before it produced.  A rule whose condition
    holds at its turn fires, whatever has been collected already: the
    context at the end of the run holds every line it adds and has every
    flag it sets; a rule whose condition fails leaves the context as it was.
    What an earlier rule did is visible to a later one, in the same stage or
    in a later one: when a rule without condition sets flag [K] and a rule
    later in the schedule tests [state.suppress.K], the later rule fires;
    and a rule that tests a flag which is not set when its turn comes does
    not fire. *)
Theorem C2_rules_run_in_schedule_order :
  (forall RULESET input,
     plain_input input ->
     runEngine RULESET input = try_in_order (schedule RULESET) (start input)) /\
  (forall RULESET, runEngine RULESET VNull = TypeError) /\
  (forall RULESET r,
     r ∈ schedule RULESET
     <-> r ∈ rules RULESET /\ stage r ∈ default [] (execution_order RULESET)) /\
  (forall RULESET stage1 stage2 before between after,
     default [] (execution_order RULESET) = before ++ stage1 :: between ++ stage2 :: after ->
     exists rs1 rs2 rs3,
       schedule RULESET
       = rs1 ++ filter (fun r => stage r = stage1) (rules RULESET)
             ++ rs2 ++ filter (fun r => stage r = stage2) (rules RULESET) ++ rs3) /\
  (forall earlier rule later ctx,
     try_in_order (earlier ++ rule :: later) ctx
     = (ctx1 ← try_in_order earlier ctx;
        matched ← evalCond ctx1 (when rule);
        try_in_order later (if matched : bool then applyThen ctx1 rule else ctx1))) /\
  (forall earlier rule later ctx ctx1 ctx',
     try_in_order earlier ctx = Ok ctx1 ->
     evalCond ctx1 (when rule) = Ok true ->
     try_in_order (earlier ++ rule :: later) ctx = Ok ctx' ->
     absorbed rule ctx') /\
  (forall earlier rule ctx ctx1,
     try_in_order earlier ctx = Ok ctx1 ->
     evalCond ctx1 (when rule) = Ok false ->
     try_in_order (earlier ++ [rule]) ctx = Ok ctx1) /\
  (forall RULESET input earlier setter between reader later k ctx',
     plain_input input ->
     schedule RULESET = earlier ++ setter :: between ++ reader :: later ->
     JS.is_nullish (when setter) = true ->
     (k, VBool true) ∈ default [] (set_suppress (default no_effect (then_ setter))) ->
     dotless k = true -> k <> "__proto__" ->
     when reader = leaf ("state.suppress." +:+ k) "eq" (VBool true) ->
     runEngine RULESET input = Ok ctx' ->
     absorbed setter ctx' /\ absorbed reader ctx' /\
     suppress (state ctx') !! k = Some true) /\
  (forall earlier reader k ctx ctx1,
     try_in_order earlier ctx = Ok ctx1 ->
     dotless k = true ->
     when reader = leaf ("state.suppress." +:+ k) "eq" (VBool true) ->
     suppress (state ctx1) !! k <> Some true ->
     try_in_order (earlier ++ [reader]) ctx = Ok ctx1).
Proof.
  assert (forall RULESET input, input <> VNull ->
            runEngine RULESET input = for_rules (schedule RULESET) (start input)) as Hrun.
  { intros RULESET input Hinput. rewrite runEngine_start by done. apply for_stages_flat. }
  split; [|split; [|split; [|split; [|split; [|split; [|split; [|split]]]]]]].
  - intros RULESET input [Hinput _]. rewrite Hrun by done. apply for_rules_in_order.
  - reflexivity.
  - intros RULESET r. unfold schedule. rewrite list_elem_of_bind. split.
    + intros (s & Hr & Hs). apply list_elem_of_filter in Hr as [<- Hr]. done.
    + intros [Hr Hs]. exists (stage r). split; [|done]. by apply list_elem_of_filter.
  - intros RULESET stage1 stage2 before between after Horder.
    unfold schedule. rewrite Horder.
    set (f := fun s => filter (fun r => stage r = s) (rules RULESET)).
    exists (before ≫= f), (between ≫= f), (after ≫= f).
    rewrite bind_app. f_equal.
    change ((stage1 :: between ++ stage2 :: after) ≫= f)
      with (f stage1 ++ ((between ++ stage2 :: after) ≫= f)).
    f_equal. rewrite bind_app. reflexivity.
  - intros earlier rule later ctx. rewrite try_in_order_app.
    destruct (try_in_order earlier ctx) as [ctx1|]; simpl; [|done].
    unfold try_in_order at 1.
    change (foldl try_next (Ok ctx1) (rule :: later))
      with (foldl try_next (try_next (Ok ctx1) rule) later).
    rewrite try_next_fire. unfold fire.
    destruct (evalCond ctx1 (when rule)) as [[]|]; simpl; try done.
    apply try_after_raise.
  - intros earlier rule later ctx ctx1 ctx'. rewrite <- !for_rules_in_order.
    apply fired_rule_absorbed.
  - intros earlier rule ctx ctx1. rewrite <- !for_rules_in_order, for_rules_app.
    intros -> Hcond. simpl. unfold fire. by rewrite Hcond.
  - intros RULESET input earlier setter between reader later k ctx'
      [Hinput _] Hschedule Hwhen Hsets Hk Hproto Hreads.
    rewrite Hrun, Hschedule, for_rules_app by done.
    destruct (for_rules earlier (start input)) as [ctx1|]; simpl; [|discriminate].
    unfold fire at 1. rewrite evalCond_absent by done. simpl.
    rewrite for_rules_app.
    destruct (for_rules between (applyThen ctx1 setter)) as [ctx2|] eqn:Hbetween; simpl;
      [|discriminate].
    assert (suppress (state ctx2) !! k = Some true) as Hflag.
    { apply (for_rules_keeps _ _ _ _ Hbetween). by apply flag_set_by_effect. }
    unfold fire at 1. rewrite Hreads, evalCond_flag, bool_decide_eq_true_2 by done. simpl.
    intros Hlater. split; [|split].
    + apply (for_rules_absorbed _ _ _ _ Hlater), absorbed_kept.
      apply (for_rules_absorbed _ _ _ _ Hbetween), absorbed_after.
    + apply (for_rules_absorbed _ _ _ _ Hlater), absorbed_after.
    + apply (for_rules_keeps _ _ _ _ Hlater), applyThen_keeps, Hflag.
  - intros earlier reader k ctx ctx1. rewrite <- !for_rules_in_order, for_rules_app.
    intros -> Hk Hreads Hflag. simpl. unfold fire.
    by rewrite Hreads, evalCond_flag, bool_decide_eq_false_2.
Qed.

(** The firing-order test of the specification, on [two_rules]: the second
    rule of the stage tests the flag that the first rule of the same stage
    sets, and the run ends with the flag set and the note of the second
    rule. *)
Lemma C2_second_rule_observes_first :
  absorbed rule_sets_ap after_two_rules /\ absorbed rule_reads_ap after_two_rules /\
  suppress (state after_two_rules) !! "ap" = Some true.
Proof.
  destruct C2_rules_run_in_schedule_order as (_ & _ & _ & _ & _ & _ & _ & Hvisible & _).
  apply (Hvisible two_rules sample_input [] rule_sets_ap [] rule_reads_ap [] "ap").
  - split; [discriminate | reflexivity].
  - reflexivity.
  - reflexivity.
  - left.
  - reflexivity.
  - discriminate.
  - reflexivity.
  - vm_compute. reflexivity.
Defined.

Example second_rule_sees_first :
  exists ctx,
    runEngine two_rules sample_input = Ok ctx /\
    suppress (state ctx) !! "ap" = Some true /\
    notes (outputs (state ctx)) = ["AP is off the table"].
Proof. eexists. split; [vm_compute; reflexivity | split; vm_compute; reflexivity]. Qed.

(** The two rules the other way round: the rule that tests the flag comes
    first, finds it unset and leaves no note; the flag is set after it. *)
Example first_rule_does_not_see_second :
  exists ctx,
    try_in_order [rule_reads_ap; rule_sets_ap] sample_context = Ok ctx /\
    suppress (state ctx) !! "ap" = Some true /\
    notes (outputs (state ctx)) = [] /\
    try_in_order [rule_reads_ap] sample_context = Ok sample_context.
Proof. eexists. repeat split; vm_compute; reflexivity. Qed.

(** ** Invariants of a run *)

Lemma uniqPush_prefix (arr : list string) (items : option (list string)) :
  arr `prefix_of` uniqPush arr items.
Proof. unfold uniqPush. rewrite push_all. by eexists. Qed.

Lemma applyThen_grows (ctx : Context) (rule : Rule) :
  Forall2 prefix (categories ctx) (categories (applyThen ctx rule)).
Proof.
  unfold categories. rewrite applyThen_outputs. cbn [locked viable actions stop notes].
  repeat constructor; apply uniqPush_prefix.
Qed.

Lemma grows_refl (ctx : Context) : Forall2 prefix (categories ctx) (categories ctx).
Proof. unfold categories. repeat constructor; reflexivity. Qed.

Lemma grows_trans (c1 c2 c3 : Context) :
  Forall2 prefix (categories c1) (categories c2) ->
  Forall2 prefix (categories c2) (categories c3) ->
  Forall2 prefix (categories c1) (categories c3).
Proof.
  intros H12 H23. eapply Forall2_trans; [|exact H12|exact H23].
  intros x y z Hxy Hyz. by etrans.
Qed.

Lemma fire_grows (rule : Rule) (ctx ctx' : Context) :
  fire rule ctx = Ok ctx' -> Forall2 prefix (categories ctx) (categories ctx').
Proof.
  unfold fire. destruct (evalCond ctx (when rule)) as [[]|]; simpl; intros [= <-].
  - apply applyThen_grows.
  - apply grows_refl.
Qed.

Lemma for_rules_grows (rs : list Rule) (ctx ctx' : Context) :
  for_rules rs ctx = Ok ctx' -> Forall2 prefix (categories ctx) (categories ctx').
Proof.
  revert ctx. induction rs as [|r rs IH]; intros ctx; simpl.
  - intros [= <-]. apply grows_refl.
  - destruct (fire r ctx) as [ctx1|] eqn:Hfire; simpl; [|discriminate].
    intros Hrest. eapply grows_trans; [by eapply fire_grows | by apply IH].
Qed.

(** Property X10. Along a run the accumulators only grow at the end: whatever
    the rules of the remaining stages do, every category keeps the lines it
    has, at their places. *)
Theorem run_only_appends (RULESET : Ruleset) (stages : list string) (ctx ctx' : Context) :
  for_stages RULESET stages ctx = Ok ctx' ->
  Forall2 prefix (categories ctx) (categories ctx').
Proof.
  revert ctx. induction stages as [|s stages IH]; intros ctx; simpl.
  - intros [= <-]. apply grows_refl.
  - destruct (for_rules _ ctx) as [ctx1|] eqn:Hstage; simpl; [|discriminate].
    intros Hrest. eapply grows_trans; [by eapply for_rules_grows | by apply IH].
Qed.

Lemma repeating_rules_on_busy_context :
  for_stages repeating_rules ["collect"] busy_context = Ok busy_after.
Proof. vm_compute. reflexivity. Qed.

(** From a context that holds lines already: the stage adds "Pathway two"
    again and three more pathways, of which one twice; the two locked
    pathways, the eight actions and the six stop lines stay where they
    were. *)
Lemma run_only_appends_on_busy_context :
  Forall2 prefix (categories busy_context) (categories busy_after).
Proof.
  exact (run_only_appends repeating_rules ["collect"] busy_context busy_after
           repeating_rules_on_busy_context).
Defined.

Lemma filter_absent (x : string) (l : list string) :
  x ∉ l -> filter (fun y => y ≠ x) l = l.
Proof.
  induction l as [|y l IH]; [reflexivity|]. intros [Hne Hx]%not_elem_of_cons.
  rewrite filter_cons_True by congruence. f_equal. by apply IH.
Qed.

Lemma first_occurrences_NoDup (l : list string) : NoDup l -> first_occurrences l = l.
Proof.
  induction 1 as [|x l Hx _ IH]; [reflexivity|]. cbn [first_occurrences]. rewrite IH.
  f_equal. by apply filter_absent.
Qed.

Lemma uniqPush_NoDup (arr : list string) (items : option (list string)) :
  NoDup arr -> NoDup (uniqPush arr items).
Proof.
  intros Harr. unfold uniqPush. rewrite push_all. apply NoDup_app. split; [done|].
  split.
  - intros x Hx Hin. apply list_elem_of_filter in Hin. tauto.
  - apply NoDup_filter, NoDup_first_occurrences.
Qed.

Lemma applyThen_NoDup (ctx : Context) (rule : Rule) :
  Forall NoDup (categories ctx) -> Forall NoDup (categories (applyThen ctx rule)).
Proof.
  unfold categories. rewrite applyThen_outputs. cbn [locked viable actions stop notes].
  intros H. repeat (apply Forall_cons in H as [? H]).
  repeat constructor; by apply uniqPush_NoDup.
Qed.

Lemma fire_NoDup (rule : Rule) (ctx ctx' : Context) :
  fire rule ctx = Ok ctx' -> Forall NoDup (categories ctx) -> Forall NoDup (categories ctx').
Proof.
  unfold fire. destruct (evalCond ctx (when rule)) as [[]|]; simpl; intros [= <-]; [|done].
  apply applyThen_NoDup.
Qed.

Lemma for_rules_NoDup (rs : list Rule) (ctx ctx' : Context) :
  for_rules rs ctx = Ok ctx' -> Forall NoDup (categories ctx) -> Forall NoDup (categories ctx').
Proof.
  revert ctx. induction rs as [|r rs IH]; intros ctx; simpl; [by intros [= <-]|].
  destruct (fire r ctx) as [ctx1|] eqn:Hfire; simpl; [|discriminate].
  intros Hrest Hnd. apply (IH ctx1 Hrest). by eapply fire_NoDup.
Qed.

Lemma for_stages_NoDup (RULESET : Ruleset) (stages : list string) (ctx ctx' : Context) :
  for_stages RULESET stages ctx = Ok ctx' ->
  Forall NoDup (categories ctx) -> Forall NoDup (categories ctx').
Proof.
  revert ctx. induction stages as [|s stages IH]; intros ctx; simpl; [by intros [= <-]|].
  destruct (for_rules _ ctx) as [ctx1|] eqn:Hstage; simpl; [|discriminate].
  intros Hrest Hnd. apply (IH ctx1 Hrest). by eapply for_rules_NoDup.
Qed.

Lemma runEngine_NoDup (RULESET : Ruleset) (input : value) (ctx : Context) :
  runEngine RULESET input = Ok ctx -> Forall NoDup (categories ctx).
Proof.
  intros Hrun. apply runEngine_returned in Hrun. apply (for_stages_NoDup _ _ _ _ Hrun).
  unfold categories. cbn. repeat constructor.
Qed.

Lemma slice0_sublist {A : Type} (arr : list A) (n : Z) : JS.slice0 arr n `sublist_of` arr.
Proof. unfold JS.slice0. destruct (n <? 0)%Z; apply sublist_take. Qed.

Lemma List_filter_sublist {A : Type} (f : A -> bool) (l : list A) :
  List.filter f l `sublist_of` l.
Proof.
  induction l as [|x l IH]; [constructor|]. cbn [List.filter].
  destruct (f x); by constructor.
Qed.

Lemma NoDup_slice0 {A : Type} (arr : list A) (n : Z) : NoDup arr -> NoDup (JS.slice0 arr n).
Proof. intros Harr. eapply sublist_NoDup; [done | apply slice0_sublist]. Qed.

(** Property X11. On the page of a run no list shows a line twice, whatever
    the maxima are; and since the notes of a run hold no line twice, taking
    them through a [Set] changes nothing: the page shows the first 8 notes as
    they were collected. *)
Theorem page_of_a_run_has_no_duplicates
    (RULESET : Ruleset) (input : value) (ctx : Context) (page : Page) :
  runEngine RULESET input = Ok ctx ->
  renderOutput RULESET ctx = Ok page ->
  notes_list page = take 8 (notes (outputs (state ctx))) /\
  NoDup (locked_list page) /\ NoDup (viable_list page) /\ NoDup (actions_list page) /\
  NoDup (stop_list page) /\ NoDup (notes_list page).
Proof.
  intros Hrun Hpage. pose proof (runEngine_NoDup _ _ _ Hrun) as Hnd.
  unfold categories in Hnd. repeat (apply Forall_cons in Hnd as [? Hnd]).
  destruct (renderOutput_lists _ _ _ Hpage) as (c & _ & -> & -> & -> & -> & ->).
  rewrite Set_order_first_occurrences, first_occurrences_NoDup by done.
  unfold enforceConstraints.
  split; [reflexivity|].
  repeat split; try done; try by apply NoDup_slice0.
  apply NoDup_slice0. eapply sublist_NoDup; [|apply List_filter_sublist]; done.
Qed.

Lemma repeating_rules_run : runEngine repeating_rules sample_input = Ok collected_context.
Proof. vm_compute. reflexivity. Qed.

Lemma collected_page_rendered : renderOutput repeating_rules collected_context = Ok collected_page.
Proof. vm_compute. reflexivity. Qed.

(** The rules of [repeating_rules] push "n1" twice, and "n2", "Pathway
    three" once each in both rules: the page shows each of them once. *)
Lemma page_of_repeating_rules_has_no_duplicates :
  notes_list collected_page = take 8 (notes (outputs (state collected_context))) /\
  NoDup (locked_list collected_page) /\ NoDup (viable_list collected_page) /\
  NoDup (actions_list collected_page) /\ NoDup (stop_list collected_page) /\
  NoDup (notes_list collected_page).
Proof.
  exact (page_of_a_run_has_no_duplicates repeating_rules sample_input collected_context
           collected_page repeating_rules_run collected_page_rendered).
Defined.
















Lemma bind_ext_in {A B : Type} (f g : A -> list B) (l : list A) :
  (forall x, x ∈ l -> f x = g x) -> l ≫= f = l ≫= g.
Proof.
  induction l as [|x l IH]; intros Hfg; [reflexivity|].
  change ((x :: l) ≫= f) with (f x ++ (l ≫= f)).
  change ((x :: l) ≫= g) with (g x ++ (l ≫= g)).
  rewrite Hfg by left. f_equal. apply IH. intros y Hy. apply Hfg. by right.
Qed.

(** Property X13. A rule whose stage is not listed in [execution_order] never
    runs: a run is the run of the ruleset without these rules, results and
    raised errors alike. *)
Theorem unlisted_stages_never_run (RULESET : Ruleset) (input : value) :
  runEngine (listed_rules RULESET) input = runEngine RULESET input.
Proof.
  unfold runEngine. cbv zeta. destruct (JS.is_nullish (Some input)); [reflexivity|].
  rewrite !for_stages_flat. f_equal.
  cbn [listed_rules execution_order rules]. apply bind_ext_in. intros s Hs.
  rewrite list_filter_filter. apply list_filter_iff. intros r. split; [tauto|].
  intros Hr. split; [done|]. by rewrite Hr.
Qed.

(** ** The page *)

Lemma enforce_negative (arr : list string) (n d : Z) :
  (n < 0)%Z ->
  enforceConstraints arr (or_count (Some n) d) = take (length arr - Z.to_nat (- n)) arr.
Proof.
  intros Hn. unfold enforceConstraints, JS.slice0, or_count.
  destruct (Z.eqb_spec n 0); [lia|]. destruct (Z.ltb_spec n 0); [done | lia].
Qed.

(** Property X15. A negative maximum cuts at the end: with a maximum of [-k]
    the page shows the list without its last [k] lines (and nothing when there
    are no more than [k]). *)
Theorem negative_maximum_drops_the_last_lines
    (RULESET : Ruleset) (ctx : Context) (page : Page) (c : Constraints) :
  output_constraints RULESET = Some c ->
  renderOutput RULESET ctx = Ok page ->
  (forall n, max_locked c = Some n -> (n < 0)%Z ->
     locked_list page
     = take (length (locked (outputs (state ctx))) - Z.to_nat (- n))
         (locked (outputs (state ctx)))) /\
  (forall n, max_viable c = Some n -> (n < 0)%Z ->
     viable_list page
     = take (length (viable (outputs (state ctx))) - Z.to_nat (- n))
         (viable (outputs (state ctx)))) /\
  (forall n, max_actions c = Some n -> (n < 0)%Z ->
     let kept := filter (fun line => ~ mentions_suppressed (suppress (state ctx)) line)
                   (actions (outputs (state ctx))) in
     actions_list page = take (length kept - Z.to_nat (- n)) kept).
Proof.
  intros Hc Hpage.
  destruct (renderOutput_lists_of _ _ _ _ Hc Hpage) as (-> & -> & -> & _ & _).
  rewrite filter_filterSuppressed.
  repeat split; intros n -> Hn; by apply enforce_negative.
Qed.

Lemma short_page_rendered : renderOutput negative_maxima busy_context = Ok short_page.
Proof. vm_compute. reflexivity. Qed.

(** With the maxima -1, -1 and -2: the last of two locked pathways and the
    last two of the six surviving actions are gone. *)
Lemma negative_maxima_on_busy_context :
  locked_list short_page
  = take (length (locked (outputs (state busy_context))) - Z.to_nat (- (-1)))
      (locked (outputs (state busy_context))) /\
  viable_list short_page
  = take (length (viable (outputs (state busy_context))) - Z.to_nat (- (-1)))
      (viable (outputs (state busy_context))) /\
  (let kept := filter (fun line => ~ mentions_suppressed (suppress (state busy_context)) line)
                 (actions (outputs (state busy_context))) in
   actions_list short_page = take (length kept - Z.to_nat (- (-2))) kept).
Proof.
  destruct (negative_maximum_drops_the_last_lines negative_maxima busy_context short_page
              {| max_locked := Some (-1)%Z; max_viable := Some (-1)%Z;
                 max_actions := Some (-2)%Z; max_stop := None |}
              eq_refl short_page_rendered) as (Hlocked & Hviable & Hactions).
  split; [|split].
  - by apply Hlocked.
  - by apply Hviable.
  - by apply Hactions.
Defined.

Lemma key_in_insert_other (m : gmap string bool) (k flag : string) (b : bool) :
  flag <> k -> key_in (suppressedKeys (<[k := b]> m)) flag = key_in (suppressedKeys m) flag.
Proof.
  intros Hne. apply eq_true_iff_eq. rewrite !key_in_suppressedKeys.
  by rewrite lookup_insert_ne.
Qed.

Lemma filterSuppressed_insert_other (m : gmap string bool) (k : string) (b : bool)
    (line : string) :
  k ∉ keyword_table.*1 ->
  filterSuppressed (suppressedKeys (<[k := b]> m)) line
  = filterSuppressed (suppressedKeys m) line.
Proof.
  intros Hk. unfold filterSuppressed.
  rewrite !(key_in_insert_other m k) by (intros <-; apply Hk; vm_compute; set_solver).
  reflexivity.
Qed.

(** Property X16. A flag that the filter has no keyword for does not touch the
    page: with the flag set to any value the page is the same. Among the seven
    flags of the initial state this is the case of [essays]. *)
Theorem flag_without_keyword_changes_nothing
    (RULESET : Ruleset) (ctx : Context) (m : gmap string bool) (k : string) (b : bool) :
  k ∉ keyword_table.*1 ->
  renderOutput RULESET (with_suppress ctx (<[k := b]> m))
  = renderOutput RULESET (with_suppress ctx m).
Proof.
  intros Hk. unfold renderOutput, with_suppress. cbv zeta. cbn [state outputs suppress].
  destruct (output_constraints RULESET) as [c|]; [|reflexivity]. simpl.
  assert (List.filter (filterSuppressed (suppressedKeys (<[k := b]> m)))
            (actions (outputs (state ctx)))
          = List.filter (filterSuppressed (suppressedKeys m)) (actions (outputs (state ctx))))
    as ->; [|reflexivity].
  apply List.filter_ext. intros line. by apply filterSuppressed_insert_other.
Qed.

Lemma essays_flag_changes_nothing :
  renderOutput no_maximum
    (with_suppress busy_context (<["essays" := true]> (suppress (state busy_context))))
  = renderOutput no_maximum (with_suppress busy_context (suppress (state busy_context))).
Proof.
  apply (flag_without_keyword_changes_nothing no_maximum busy_context
           (suppress (state busy_context)) "essays" true).
  vm_compute. intros Hin. repeat (apply elem_of_cons in Hin as [[=]|Hin]).
  by apply elem_of_nil in Hin.
Defined.

(** Property X17. Suppression filters the actions and nothing else: whatever
    the flags are, the page shows the same locked, viable, stop and notes
    lists, the same success text and the same pills. A note or a stop line
    that mentions something suppressed stays on the page. *)
Theorem suppression_filters_actions_only
    (RULESET : Ruleset) (ctx : Context) (m m' : gmap string bool) :
  (page ← renderOutput RULESET (with_suppress ctx m); Ok (without_actions page))
  = (page ← renderOutput RULESET (with_suppress ctx m'); Ok (without_actions page)).
Proof.
  unfold renderOutput, with_suppress. cbv zeta. cbn [state outputs suppress].
  destruct (output_constraints RULESET) as [c|]; [|reflexivity]. simpl.
  change (chooseSuccessTemplate {| input := input ctx; derived := derived ctx;
            state := {| outputs := outputs (state ctx); suppress := m |} |})
    with (chooseSuccessTemplate {| input := input ctx; derived := derived ctx;
            state := {| outputs := outputs (state ctx); suppress := m' |} |}).
  by destruct (chooseSuccessTemplate _).
Qed.


(** ** The form and the page around the engine *)

Lemma Qle_bool_false (x y : Q) : Qle_bool x y = false -> (y < x)%Q.
Proof.
  intros H. apply Qnot_le_lt. rewrite <- Qle_bool_iff. by rewrite H.
Qed.

Lemma clamp_between (n : num) (lo hi : Q) :
  (lo <= hi)%Q ->
  exists r, clamp n (Fin lo) (Fin hi) = Fin r /\ (lo <= r)%Q /\ (r <= hi)%Q /\
    (n = NaN -> r = lo) /\
    (forall q, n = Fin q -> (lo <= q)%Q -> (q <= hi)%Q -> (r == q)%Q).
Proof.
  intros Hbounds. destruct n as [|q]; cbn [clamp Math.max Math.min].
  - exists lo. repeat split; try lra. intros q [=].
  - destruct (Qle_bool hi q) eqn:Hhi; [apply Qle_bool_iff in Hhi | apply Qle_bool_false in Hhi].
    + rewrite (proj2 (Qle_bool_iff lo hi) Hbounds). exists hi.
      repeat split; try lra; try discriminate. intros q' [= <-] ? ?. lra.
    + destruct (Qle_bool lo q) eqn:Hlo; [apply Qle_bool_iff in Hlo | apply Qle_bool_false in Hlo].
      * exists q. repeat split; try lra; try discriminate. by intros q' [= <-] ? ?.
      * exists lo. repeat split; try lra; try discriminate. intros q' [= <-] ? ?. lra.
Qed.

(** Property X19. With bounds in order, [clamp] returns a number between them,
    whatever it is given: the lower bound for [NaN], and the number itself
    when it lies between the bounds. *)
Theorem clamp_stays_in_range (n : num) (lo hi : Q) :
  (lo <= hi)%Q ->
  exists r, clamp n (Fin lo) (Fin hi) = Fin r /\ (lo <= r)%Q /\ (r <= hi)%Q /\
    (n = NaN -> r = lo) /\
    (forall q, n = Fin q -> (lo <= q)%Q -> (q <= hi)%Q -> (r == q)%Q).
Proof. apply clamp_between. Qed.

Lemma clamp_of_a_high_mark :
  exists r, clamp (Fin 4.5) (Fin 2.0) (Fin 4.0) = Fin r /\ (2.0 <= r)%Q /\ (r <= 4.0)%Q /\
    (Fin 4.5 = NaN -> r = 2.0%Q) /\
    (forall q, Fin 4.5 = Fin q -> (2.0 <= q)%Q -> (q <= 4.0)%Q -> (r == q)%Q).
Proof. apply (clamp_stays_in_range (Fin 4.5) 2.0 4.0). lra. Defined.

Section Page.

Variable parseInt : string -> num.
Variable parseFloat : string -> num.

Lemma form_gpa (form : Form) :
  JS.get (Some (readInputs parseInt parseFloat form)) "gpa_unweighted"
  = Some (VNum (clamp (parseFloat (gpa_unweighted form)) (Fin 2.0) (Fin 4.0))).
Proof. reflexivity. Qed.



End Page.

(** Property X20. The GPA that the engine gets from the form is a number from
    2.0 to 4.0, whatever the field holds. A field that does not read as a
    number counts as 2.0, which is band E; a mark above 4.0 counts as 4.0,
    which is band A. *)
Theorem form_gpa_is_between_2_and_4 (parseInt parseFloat : string -> num) (form : Form) :
  let gpa := JS.get (Some (readInputs parseInt parseFloat form)) "gpa_unweighted" in
  (exists g, gpa = Some (VNum (Fin g)) /\ (2.0 <= g)%Q /\ (g <= 4.0)%Q) /\
  (parseFloat (gpa_unweighted form) = NaN -> computeGpaBand gpa = "E") /\
  (forall q, parseFloat (gpa_unweighted form) = Fin q -> (4.0 <= q)%Q ->
     computeGpaBand gpa = "A").
Proof.
  cbv zeta. rewrite form_gpa. split; [|split].
  - destruct (clamp_between (parseFloat (gpa_unweighted form)) 2.0 4.0) as (g & -> & ? & ? & _);
      [lra|]. by exists g.
  - intros ->. reflexivity.
  - intros q -> Hq. cbn [clamp Math.max Math.min].
    rewrite (proj2 (Qle_bool_iff 4.0 q) Hq). reflexivity.
Qed.

Lemma one_grade (g : jsval) (n m : Z) :
  JS.strict_eq g (Some (JS.of_Z n)) = true -> JS.strict_eq g (Some (JS.of_Z m)) = true -> n = m.
Proof. rewrite !strict_eq_grade. apply is_grade_unique. Qed.

(** Property X21. The month reaches the engine exactly when its field is on
    the page, that is when the grade reads as 12; otherwise the input holds
    [null] in its place. So the time window is closed only for a form that
    shows the month field with "october_or_later" in it: a month left in the
    hidden field never closes the window. *)
Theorem month_counts_only_in_grade_12 (parseInt parseFloat : string -> num) (form : Form) :
  let input := Some (readInputs parseInt parseFloat form) in
  let hidden := updateMonthBucketVisibility parseInt form in
  JS.get input "grade_month_bucket"
  = Some (if hidden then VNull else VStr (grade_month_bucket form)) /\
  (computeTimeWindow (JS.get input "grade_level") (JS.get input "grade_month_bucket") = "closed"
   <-> hidden = false /\ grade_month_bucket form = "october_or_later").
Proof.
  cbv zeta. unfold updateMonthBucketVisibility.
  change (JS.get (Some (readInputs parseInt parseFloat form)) "grade_level")
    with (Some (VNum (parseInt (grade_level form)))).
  change (JS.get (Some (readInputs parseInt parseFloat form)) "grade_month_bucket")
    with (Some (if JS.strict_eq (Some (VNum (parseInt (grade_level form)))) (Some (JS.of_Z 12))
                then VStr (grade_month_bucket form) else VNull)).
  generalize (Some (VNum (parseInt (grade_level form)))). intros g.
  unfold computeTimeWindow.
  destruct (JS.strict_eq g (Some (JS.of_Z 12))) eqn:H12; cbn [negb].
  - split; [reflexivity|].
    destruct (JS.strict_eq g (Some (JS.of_Z 9))) eqn:H9;
      [discriminate (one_grade _ _ _ H9 H12)|].
    destruct (JS.strict_eq g (Some (JS.of_Z 10))) eqn:H10;
      [discriminate (one_grade _ _ _ H10 H12)|].
    destruct (JS.strict_eq g (Some (JS.of_Z 11))) eqn:H11;
      [discriminate (one_grade _ _ _ H11 H12)|].
    cbn [orb JS.strict_eq]. rewrite eqb_decide. case_bool_decide as Hm.
    + by split.
    + split; [discriminate | tauto].
  - split; [reflexivity|]. split; [|intros [[=] _]].
    destruct (JS.strict_eq g (Some (JS.of_Z 9)) || JS.strict_eq g (Some (JS.of_Z 10)));
      [discriminate|].
    destruct (JS.strict_eq g (Some (JS.of_Z 11))); discriminate.
Qed.

Lemma length_of_held_lines (v : jsval) (l : list string) :
  holds_lines v l ->
  num_gt (JS.ToNumber (JS.get (Some (JS.or_else v (VArr []))) "length")) (Fin 0)
  = bool_decide (l <> []).
Proof.
  intros [-> | [Hnull ->]].
  - destruct l as [|x l]; [reflexivity|].
    rewrite bool_decide_eq_true_2 by done.
    cbn -[Z.of_nat]. destruct (Qle_bool _ 0) eqn:H; [|reflexivity].
    apply Qle_bool_iff in H. unfold Qle in H. cbn -[Z.of_nat] in H. lia.
  - by destruct v as [[]|].
Qed.

Lemma toggleUcExplainer_on_lines (ctx : Context) (systems campuses : list string) (wrap : bool) :
  holds_lines (JS.get (Some (input ctx)) "systems_considered") systems ->
  holds_lines (JS.get (Some (input ctx)) "campus_targets_uc") campuses ->
  toggleUcExplainer ctx wrap
  = Ok (if wrap
        then Some (if bool_decide ("uc" ∈ systems \/ campuses <> []) then "block" else "none")
        else None).
Proof.
  intros Hsys Hcamp. unfold toggleUcExplainer. cbv zeta.
  rewrite (includes_held_lines _ _ _ Hsys), (length_of_held_lines _ _ Hcamp). simpl.
  destruct wrap; [|reflexivity]. do 2 f_equal.
  assert (bool_decide ("uc" ∈ systems \/ campuses <> [])
          = bool_decide ("uc" ∈ systems) || bool_decide (campuses <> [])) as ->.
  { apply eq_true_iff_eq. rewrite orb_true_iff, !bool_decide_eq_true. tauto. }
  by destruct (bool_decide ("uc" ∈ systems)), (bool_decide (campuses <> [])).
Qed.

Ltac not_listed :=
  let Hin := fresh in
  intros Hin; repeat (apply elem_of_cons in Hin as [[=]|Hin]); by apply elem_of_nil in Hin.

Lemma chooseSuccessTemplate_on_lines (ctx : Context) (systems campuses : list string) :
  holds_lines (JS.get (Some (input ctx)) "systems_considered") systems ->
  holds_lines (JS.get (Some (input ctx)) "campus_targets_uc") campuses ->
  exists key, chooseSuccessTemplate ctx = Ok key /\ (key ∈ uc_narratives -> "uc" ∈ systems).
Proof.
  unfold chooseSuccessTemplate.
  generalize (JS.get (Some (input ctx)) "systems_considered"),
             (JS.get (Some (input ctx)) "campus_targets_uc").
  intros sys camp Hsys Hcamp.
  rewrite !(includes_held_lines _ _ _ Hsys), (includes_held_lines _ _ _ Hcamp).
  rewrite (some_items_ext _ (fun c => Ok (bool_decide (c ∈ campuses))))
    by (intros; by apply includes_held_lines).
  rewrite some_items_decided.
  assert (forall key : string, key ∉ uc_narratives -> key ∈ uc_narratives -> "uc" ∈ systems)
    as Hother by (intros key Hno Hin; by destruct Hno).
  assert (forall key : string, "uc" ∈ systems -> key ∈ uc_narratives -> "uc" ∈ systems)
    as Huc by done.
  destruct (String.eqb (time_window (derived ctx)) "closed");
    [eexists; split; [reflexivity | apply Hother; not_listed]|].
  destruct (String.eqb (gpa_band (derived ctx)) "C" || String.eqb (gpa_band (derived ctx)) "D"
            || String.eqb (gpa_band (derived ctx)) "E").
  { simpl. destruct (bool_decide ("cc_transfer" ∈ systems));
      eexists; (split; [reflexivity | apply Hother; not_listed]). }
  simpl. case_bool_decide as Hin; simpl;
    [|eexists; split; [reflexivity | apply Hother; not_listed]].
  destruct (bool_decide ("UCM" ∈ campuses)); simpl; [eexists; split; [reflexivity | by apply Huc]|].
  destruct (bool_decide (Exists _ _)); [eexists; split; [reflexivity | by apply Huc]|].
  destruct (String.eqb (time_window (derived ctx)) "early");
    eexists; (split; [reflexivity | by apply Huc]).
Qed.

(** Property X22. The explainer of the UC system is shown exactly when the
    input lists "uc" among the systems or names a UC campus, and nothing is
    set on a page without the wrapper. Whenever the selector picks one of the
    four UC narratives, the explainer is shown. *)
Theorem explainer_follows_uc_interest (ctx : Context) (systems campuses : list string) :
  holds_lines (JS.get (Some (input ctx)) "systems_considered") systems ->
  holds_lines (JS.get (Some (input ctx)) "campus_targets_uc") campuses ->
  toggleUcExplainer ctx true
  = Ok (Some (if bool_decide ("uc" ∈ systems \/ campuses <> []) then "block" else "none")) /\
  toggleUcExplainer ctx false = Ok None /\
  (forall key, chooseSuccessTemplate ctx = Ok key -> key ∈ uc_narratives ->
     toggleUcExplainer ctx true = Ok (Some "block")).
Proof.
  intros Hsys Hcamp. rewrite !(toggleUcExplainer_on_lines _ _ _ _ Hsys Hcamp).
  split; [reflexivity | split; [reflexivity|]].
  intros key Hkey Hin.
  destruct (chooseSuccessTemplate_on_lines _ _ _ Hsys Hcamp) as (key' & Hkey' & Huc).
  rewrite Hkey in Hkey'. injection Hkey' as <-.
  rewrite bool_decide_eq_true_2; [reflexivity|]. left. by apply Huc.
Qed.

Lemma explainer_on_sample_context :
  toggleUcExplainer sample_context true
  = Ok (Some (if bool_decide ("uc" ∈ ["uc"] \/ ["UCSD"] <> []) then "block" else "none")) /\
  toggleUcExplainer sample_context false = Ok None /\
  (forall key, chooseSuccessTemplate sample_context = Ok key -> key ∈ uc_narratives ->
     toggleUcExplainer sample_context true = Ok (Some "block")).
Proof.
  apply (explainer_follows_uc_interest sample_context ["uc"] ["UCSD"]); left; reflexivity.
Defined.




(** Property X24. [renderList] never leaves a list blank. Items are shown one
    per line, in order and unmarked; without items the list shows one muted
    line, whose text is never empty: the text given for the empty case, or "No
    items." when none is given. *)
Theorem renderList_never_leaves_a_list_blank
    (items : option (list string)) (emptyText : option string) :
  renderList items emptyText <> [] /\
  (default [] items <> [] ->
     renderList items emptyText
     = (fun it => {| className := ""; textContent := it |}) <$> default [] items) /\
  (default [] items = [] ->
     exists text, text <> "" /\
       renderList items emptyText = [ {| className := "muted"; textContent := text |} ] /\
       (forall given, emptyText = Some given -> given <> "" -> text = given)).
Proof.
  destruct items as [[|x rest]|]; cbn [renderList default]; (split; [done|]);
    (split; [done|]); try done; intros _.
  all: destruct emptyText as [given|]; [destruct (String.eqb given "") eqn:Hgiven|].
  all: eexists; (split; [|split; [reflexivity|]]); try done.
  all: try (by apply String.eqb_neq).
  all: try (intros given' [= <-] Hne; try done; by apply String.eqb_eq in Hgiven).
Qed.

Lemma lower_char_twice (c : ascii) : JS.lower_char (JS.lower_char c) = JS.lower_char c.
Proof. by destruct c as [[] [] [] [] [] [] [] []]. Qed.

Lemma toLowerCase_twice (s : string) : JS.toLowerCase (JS.toLowerCase s) = JS.toLowerCase s.
Proof.
  induction s as [|c s IH]; [reflexivity|]. cbn [JS.toLowerCase].
  by rewrite lower_char_twice, IH.
Qed.

(** Property X25. [toBool] keeps a boolean and reads a text as true exactly
    when it spells "true" in whatever letter case; [null], [undefined] and
    every other text (the empty one, "yes", "1") are false. Reading its own
    result changes nothing. *)
Theorem toBool_reads_true_in_any_case :
  (forall b, toBool (Some (VBool b)) = b) /\
  (forall s, toBool (Some (VStr s)) = true <-> JS.toLowerCase s = "true") /\
  (forall s, toBool (Some (VStr (JS.toLowerCase s))) = toBool (Some (VStr s))) /\
  toBool undefined = false /\ toBool (Some VNull) = false /\
  toBool (Some (VStr "TRUE")) = true /\ toBool (Some (VStr "True")) = true /\
  toBool (Some (VStr "")) = false /\ toBool (Some (VStr "yes")) = false /\
  toBool (Some (VStr "1")) = false /\
  (forall v, toBool (Some (VBool (toBool v))) = toBool v).
Proof.
  split; [done|]. split; [intros s; apply String.eqb_eq|].
  split; [intros s; cbn [toBool JS.ToString JS.to_string]; by rewrite toLowerCase_twice|].
  repeat split; reflexivity.
Qed.
